(** * movie_sync: the playback-synchronisation engine of [main.py] and [main2.py]

    A shallow embedding of the two variants of the program found in the
    repository ([main.py], the rate-nudging variant, and [main2.py], the
    wall-clock variant), and the properties of its playlist, reconciliation,
    load gate, dispatcher and drift correction.

    Conventions of the embedding
    - Python [int] is [Z]; [%] with a positive modulus is [Z.modulo].
    - [str] is [string]; Python truthiness of a string ([if s], [not s]) is
      [truthy].
    - A [dict] received from the wire is a record of optional fields: [None]
      is an absent key, and reading an absent key with [d["k"]] raises
      [KeyError].  Present fields carry the JSON type the protocol gives them.
    - An exception is a value of [exn]; a method of [VLCSync] is a function
      from the object's state to a [result] and the state the call leaves
      behind (mutations done before a [raise] persist, as in Python).
    - The media engine (VLC), the file system, the clock, the network and the
      random generator are not part of the program: the engine is the record
      [Player] with the obvious reading of its setters, the others are the
      fields of [World], the readings one call observes.
    - Every call of [socket.send], whether it then succeeds or raises, is
      recorded in the ghost field [sent]; [print] calls are recorded in the
      ghost field [log]. *)

From Stdlib Require Import ZArith Bool List String Lia.
From stdpp Require Import base option list gmap strings.
Import ListNotations.

Local Open Scope string_scope.
Local Open Scope Z_scope.

(** ** Python values *)

(** Truthiness of a [str]: only the empty string is falsy. *)
Definition truthy (s : string) : bool :=
  match s with
  | EmptyString => false
  | String _ _ => true
  end.

(** Truthiness of an [Optional[str]] ([None] and [""] are falsy). *)
Definition truthy_opt (o : option string) : bool :=
  match o with
  | Some s => truthy s
  | None => false
  end.

(** The exceptions the modelled code can raise. *)
Inductive exn : Type :=
| KeyError (key : string)
| ZeroDivisionError
| ValueError
| OSError
| UnicodeDecodeError.

Inductive result (A : Type) : Type :=
| Ok (a : A)
| Raise (e : exn).
Arguments Ok {A} a.
Arguments Raise {A} e.

(** [d[key]] on a record-of-options view of a dict. *)
Definition subscript {A : Type} (key : string) (field : option A) : result A :=
  match field with
  | Some v => Ok v
  | None => Raise (KeyError key)
  end.

(** ** MediaFile (the dataclass) *)

Module MediaFile.
Record t : Type := Build {
  path : string;
  name : string;
  size : Z;
  hash : string;
  index : Z
}.
End MediaFile.

(** ** Playlist *)

Module Playlist.

Record t : Type := Build {
  media_files : list MediaFile.t;
  current_index : Z
}.

(** [Playlist.__init__] *)
Definition init : t := {| media_files := []; current_index := -1 |}.

(** [len(self.media_files)] *)
Definition len (p : t) : Z := Z.of_nat (length (media_files p)).

(** [add_file]: [self.media_files.append(media_file)] *)
Definition add_file (media_file : MediaFile.t) (p : t) : t :=
  {| media_files := media_files p ++ [media_file];
     current_index := current_index p |}.

(** [get_current_file] *)
Definition get_current_file (p : t) : option MediaFile.t :=
  if (0 <=? current_index p) && (current_index p <? len p)
  then media_files p !! Z.to_nat (current_index p)
  else None.

(** [set_current_index]: the returned bool and the playlist afterwards. *)
Definition set_current_index (index : Z) (p : t) : bool * t :=
  if (0 <=? index) && (index <? len p)
  then (true, {| media_files := media_files p; current_index := index |})
  else (false, p).

(** [next_file]: [if self.media_files:] is the non-emptiness test. *)
Definition next_file (p : t) : option MediaFile.t * t :=
  match media_files p with
  | [] => (None, p)
  | _ :: _ =>
      let p' := {| media_files := media_files p;
                   current_index := (current_index p + 1) mod len p |} in
      (get_current_file p', p')
  end.

(** [previous_file] *)
Definition previous_file (p : t) : option MediaFile.t * t :=
  match media_files p with
  | [] => (None, p)
  | _ :: _ =>
      let p' := {| media_files := media_files p;
                   current_index := (current_index p - 1) mod len p |} in
      (get_current_file p', p')
  end.

(** The operations a caller can apply to a playlist, and a run of them. *)
Inductive op : Type :=
| OpAdd (media_file : MediaFile.t)
| OpSet (index : Z)
| OpNext
| OpPrev.

Definition step (o : op) (p : t) : t :=
  match o with
  | OpAdd mf => add_file mf p
  | OpSet i => snd (set_current_index i p)
  | OpNext => snd (next_file p)
  | OpPrev => snd (previous_file p)
  end.

(** [run ops p]: apply [ops] from left to right. *)
Definition run (ops : list op) (p : t) : t :=
  fold_left (fun q o => step o q) ops p.

(** The cursor is "none selected" or a valid position. *)
Definition cursor_ok (p : t) : Prop :=
  current_index p = -1 \/ (0 <= current_index p < len p).

(** The entry stored at a position given as a Python int. *)
Definition at_position (p : t) (i : Z) : option MediaFile.t :=
  if 0 <=? i then media_files p !! Z.to_nat i else None.

End Playlist.

(** ** Wire messages *)

(** One element of the [playlist] list of a [playlist_info] message. *)
Record FileInfo : Type := {
  fi_name : option string;
  fi_size : option Z;
  fi_hash : option string;
  fi_index : option Z
}.

(** A decoded message: the keys the program ever reads. *)
Record Command : Type := {
  c_type : option string;
  c_playlist : option (list FileInfo);
  c_index : option Z;
  c_time : option Z;
  c_sync_time : option Z;
  c_enabled : option bool
}.

(** [{"type": ty}] *)
Definition msg (ty : string) : Command :=
  {| c_type := Some ty; c_playlist := None; c_index := None;
     c_time := None; c_sync_time := None; c_enabled := None |}.

Definition with_index (i : Z) (c : Command) : Command :=
  {| c_type := c_type c; c_playlist := c_playlist c; c_index := Some i;
     c_time := c_time c; c_sync_time := c_sync_time c; c_enabled := c_enabled c |}.

Definition with_time (t : Z) (c : Command) : Command :=
  {| c_type := c_type c; c_playlist := c_playlist c; c_index := c_index c;
     c_time := Some t; c_sync_time := c_sync_time c; c_enabled := c_enabled c |}.

Definition with_sync_time (t : Z) (c : Command) : Command :=
  {| c_type := c_type c; c_playlist := c_playlist c; c_index := c_index c;
     c_time := c_time c; c_sync_time := Some t; c_enabled := c_enabled c |}.

Definition with_enabled (b : bool) (c : Command) : Command :=
  {| c_type := c_type c; c_playlist := c_playlist c; c_index := c_index c;
     c_time := c_time c; c_sync_time := c_sync_time c; c_enabled := Some b |}.

Definition with_playlist (l : list FileInfo) (c : Command) : Command :=
  {| c_type := c_type c; c_playlist := Some l; c_index := c_index c;
     c_time := c_time c; c_sync_time := c_sync_time c; c_enabled := c_enabled c |}.

(** What [broadcast_playlist] announces for one entry: name, size, hash and
    index, never the path. *)
Definition announce (media : MediaFile.t) : FileInfo :=
  {| fi_name := Some (MediaFile.name media);
     fi_size := Some (MediaFile.size media);
     fi_hash := Some (MediaFile.hash media);
     fi_index := Some (MediaFile.index media) |}.

(** ** The media engine *)

(** Playback rate in hundredths: [set_rate(0.95)] is [95], nominal is [100]. *)
Module Player.

Record t : Type := Build {
  media : option string;
  playing : bool;
  time : Z;
  rate : Z
}.

Definition init : t :=
  {| media := None; playing := false; time := 0; rate := 100 |}.

Definition is_playing (p : t) : bool := playing p.
Definition get_time (p : t) : Z := time p.

Definition set_time (ms : Z) (p : t) : t :=
  {| media := media p; playing := playing p; time := ms; rate := rate p |}.

Definition set_rate (r : Z) (p : t) : t :=
  {| media := media p; playing := playing p; time := time p; rate := r |}.

Definition set_media (path : string) (p : t) : t :=
  {| media := Some path; playing := playing p; time := time p; rate := rate p |}.

Definition play (p : t) : t :=
  {| media := media p; playing := true; time := time p; rate := rate p |}.

(** VLC's [pause()] toggles between paused and playing. *)
Definition pause (p : t) : t :=
  {| media := media p; playing := negb (playing p); time := time p; rate := rate p |}.

End Player.

(** ** The world one call observes *)

Definition socket : Type := nat.

Record World : Type := {
  (** what [find_media_files(folder)] returns: the sorted media paths *)
  scan_folder : string -> list string;
  (** [FileHandler.get_file_info(path)] as (name, size, hash); [None] when
      the file cannot be read and the call raises *)
  file_info : string -> option (string * Z * string);
  (** [os.path.exists] *)
  path_exists : string -> bool;
  (** whether [socket.send] raises on this socket *)
  send_fails : socket -> bool;
  (** [int(time.time() * 1000)] *)
  clock_ms : Z;
  (** the round trip [measure_latency()] times, truncated to whole
      milliseconds; 0 when the probe fails or is answered by something
      other than a [pong] *)
  rtt_ms : Z;
  (** the draw behind [random.randint] *)
  random_draw : Z
}.

(** ** VLCSync: state and the monad of its methods *)

Inductive LogLine : Type :=
| LogMissingFiles (names : list string)
| LogIndexNotFound (file_index : Z)
| LogFileNotFoundLocally (name : string)
| LogClientRequestedFile (name : string)
| LogClientDisconnected
| LogDecodeFailed
| LogReceiveError (e : exn)
| LogDisconnectedFromHost.

Record VLCSync : Type := {
  is_host : bool;
  folder_path : option string;
  playlist : Playlist.t;
  clients : list socket;
  client_socket : option socket;
  missing_files : gmap Z MediaFile.t;
  shuffle_mode : bool;
  player : Player.t;
  sent : list (socket * Command);
  log : list LogLine
}.

Definition set_playlist (x : Playlist.t) (s : VLCSync) : VLCSync :=
  {| is_host := is_host s; folder_path := folder_path s; playlist := x;
     clients := clients s; client_socket := client_socket s;
     missing_files := missing_files s; shuffle_mode := shuffle_mode s;
     player := player s; sent := sent s; log := log s |}.

Definition set_clients (x : list socket) (s : VLCSync) : VLCSync :=
  {| is_host := is_host s; folder_path := folder_path s; playlist := playlist s;
     clients := x; client_socket := client_socket s;
     missing_files := missing_files s; shuffle_mode := shuffle_mode s;
     player := player s; sent := sent s; log := log s |}.

Definition set_missing_files (x : gmap Z MediaFile.t) (s : VLCSync) : VLCSync :=
  {| is_host := is_host s; folder_path := folder_path s; playlist := playlist s;
     clients := clients s; client_socket := client_socket s;
     missing_files := x; shuffle_mode := shuffle_mode s;
     player := player s; sent := sent s; log := log s |}.

Definition set_shuffle_mode (x : bool) (s : VLCSync) : VLCSync :=
  {| is_host := is_host s; folder_path := folder_path s; playlist := playlist s;
     clients := clients s; client_socket := client_socket s;
     missing_files := missing_files s; shuffle_mode := x;
     player := player s; sent := sent s; log := log s |}.

Definition set_player (x : Player.t) (s : VLCSync) : VLCSync :=
  {| is_host := is_host s; folder_path := folder_path s; playlist := playlist s;
     clients := clients s; client_socket := client_socket s;
     missing_files := missing_files s; shuffle_mode := shuffle_mode s;
     player := x; sent := sent s; log := log s |}.

Definition set_sent (x : list (socket * Command)) (s : VLCSync) : VLCSync :=
  {| is_host := is_host s; folder_path := folder_path s; playlist := playlist s;
     clients := clients s; client_socket := client_socket s;
     missing_files := missing_files s; shuffle_mode := shuffle_mode s;
     player := player s; sent := x; log := log s |}.

Definition set_log (x : list LogLine) (s : VLCSync) : VLCSync :=
  {| is_host := is_host s; folder_path := folder_path s; playlist := playlist s;
     clients := clients s; client_socket := client_socket s;
     missing_files := missing_files s; shuffle_mode := shuffle_mode s;
     player := player s; sent := sent s; log := x |}.

(** A method: the result (or the exception) and the state left behind. *)
Definition M (A : Type) : Type := VLCSync -> result A * VLCSync.

Definition ret {A : Type} (a : A) : M A := fun s => (Ok a, s).

Definition bind {A B : Type} (m : M A) (k : A -> M B) : M B :=
  fun s =>
    match m s with
    | (Ok a, s') => k a s'
    | (Raise e, s') => (Raise e, s')
    end.

Definition raise {A : Type} (e : exn) : M A := fun s => (Raise e, s).

(** Run a pure, fallible computation inside a method. *)
Definition lift {A : Type} (r : result A) : M A := fun s => (r, s).

Definition get : M VLCSync := fun s => (Ok s, s).
Definition modify (f : VLCSync -> VLCSync) : M unit := fun s => (Ok tt, f s).

#[global] Instance M_ret : MRet M := @ret.
#[global] Instance M_bind : MBind M := fun A B k m => bind m k.

Definition print (l : LogLine) : M unit :=
  modify (fun s => set_log (log s ++ [l]) s).

(** [self.player.<setter>(...)] *)
Definition on_player (f : Player.t -> Player.t) : M unit :=
  modify (fun s => set_player (f (player s)) s).

(** [for x in xs: body(x)] *)
Fixpoint for_each {A : Type} (body : A -> M unit) (xs : list A) : M unit :=
  match xs with
  | [] => mret tt
  | x :: rest => body x;; for_each body rest
  end.

(** [list.remove(x)]: drops the first occurrence. *)
Fixpoint remove_first (x : socket) (l : list socket) : list socket :=
  match l with
  | [] => []
  | y :: rest => if Nat.eqb x y then rest else y :: remove_first x rest
  end.

(** [x in list] *)
Definition contains (x : socket) (l : list socket) : bool :=
  existsb (Nat.eqb x) l.

(** ** Methods that read the same in [main.py] and [main2.py] *)

Section Methods.

Variable w : World.

(** [find_media_files]: the folder scan is the world's. *)
Definition find_media_files (folder : string) : list string :=
  scan_folder w folder.

(** [FileHandler.get_file_info] *)
Definition get_file_info (filepath : string) : result (string * Z * string) :=
  match file_info w filepath with
  | Some info => Ok info
  | None => Raise OSError
  end.

(** [send_command]: the call of [socket.send] is recorded in [sent]; when it
    raises, the exception is swallowed and the socket, if it is one of
    [self.clients], is dropped from the list.  [None] stands for a missing
    socket object, on which [.send] raises and the handler finds nothing to
    remove. *)
Definition send_command (command : Command) (client_socket : option socket) : M unit :=
  match client_socket with
  | None => mret tt
  | Some c =>
      modify (fun s => set_sent (sent s ++ [(c, command)]) s);;
      if send_fails w c then
        s ← get;
        if contains c (clients s) then
          modify (set_clients (remove_first c (clients s)));;
          print LogClientDisconnected
        else mret tt
      else mret tt
  end.

(** [broadcast_command]: iterates the copy [self.clients[:]]. *)
Definition broadcast_command (command : Command) : M unit :=
  s ← get;
  for_each (fun c => send_command command (Some c)) (clients s).

(** The loop of [find_matching_file] over the scanned paths. *)
Fixpoint first_match (paths : list string) (announced_hash : option string)
  : result (option string) :=
  match paths with
  | [] => Ok None
  | file_path :: rest =>
      match get_file_info file_path with
      | Raise e => Raise e
      | Ok (_, _, local_hash) =>
          match subscript "hash" announced_hash with
          | Raise e => Raise e
          | Ok h =>
              if String.eqb local_hash h then Ok (Some file_path)
              else first_match rest announced_hash
          end
      end
  end.

(** [find_matching_file] *)
Definition find_matching_file (fi : FileInfo) : M (option string) :=
  s ← get;
  match folder_path s with
  | Some folder =>
      if truthy folder then lift (first_match (find_media_files folder) (fi_hash fi))
      else mret None
  | None => mret None
  end.

(** The body of the [for file_info in playlist_info] loop; [missing] is the
    local list [missing_files]. *)
Fixpoint reconcile (playlist_info : list FileInfo) (missing : list MediaFile.t)
  : M (list MediaFile.t) :=
  match playlist_info with
  | [] => mret missing
  | fi :: rest =>
      local_path ← find_matching_file fi;
      name ← lift (subscript "name" (fi_name fi));
      size ← lift (subscript "size" (fi_size fi));
      hash ← lift (subscript "hash" (fi_hash fi));
      index ← lift (subscript "index" (fi_index fi));
      let media_file :=
        {| MediaFile.path := if truthy_opt local_path then default "" local_path else "";
           MediaFile.name := name; MediaFile.size := size;
           MediaFile.hash := hash; MediaFile.index := index |} in
      modify (fun s => set_playlist (Playlist.add_file media_file (playlist s)) s);;
      if negb (truthy_opt local_path) then
        modify (fun s =>
          set_missing_files (<[MediaFile.index media_file := media_file]> (missing_files s)) s);;
        reconcile rest (missing ++ [media_file])
      else reconcile rest missing
  end.

(** [handle_playlist_info] *)
Definition handle_playlist_info (playlist_info : list FileInfo) : M unit :=
  modify (set_playlist Playlist.init);;
  missing ← reconcile playlist_info [];
  match missing with
  | [] => mret tt
  | _ :: _ => print (LogMissingFiles (map MediaFile.name missing))
  end.

(** [next((mf for mf in media_files if mf.index == file_index), None)] *)
Definition lookup_index (file_index : Z) (p : Playlist.t) : option MediaFile.t :=
  find (fun mf => MediaFile.index mf =? file_index) (Playlist.media_files p).

(** [request_file] *)
Definition request_file (file_index : Z) : M unit :=
  s ← get;
  if negb (is_host s) then
    send_command (with_index file_index (msg "request_file")) (client_socket s)
  else mret tt.

(** [verify_and_load_file] *)
Definition verify_and_load_file (file_index : Z) : M bool :=
  s ← get;
  match lookup_index file_index (playlist s) with
  | None =>
      print (LogIndexNotFound file_index);;
      mret false
  | Some media_file =>
      if negb (path_exists w (MediaFile.path media_file)) then
        print (LogFileNotFoundLocally (MediaFile.name media_file));;
        request_file file_index;;
        mret false
      else
        modify (fun s =>
          set_playlist (snd (Playlist.set_current_index file_index (playlist s))) s);;
        on_player (Player.set_media (MediaFile.path media_file));;
        mret true
  end.

(** [handle_file_request] *)
Definition handle_file_request (command : Command) : M unit :=
  file_index ← lift (subscript "index" (c_index command));
  s ← get;
  match lookup_index file_index (playlist s) with
  | Some media_file =>
      if path_exists w (MediaFile.path media_file)
      then print (LogClientRequestedFile (MediaFile.name media_file))
      else mret tt
  | None => mret tt
  end.

(** [measure_latency]: the ping is sent and the reply, read from the same
    socket, is timed by the world; on the host, or without a socket, the
    answer is 0. *)
Definition measure_latency : M Z :=
  s ← get;
  match client_socket s with
  | Some c =>
      if negb (is_host s) then
        send_command (msg "ping") (Some c);;
        mret (rtt_ms w)
      else mret 0
  | None => mret 0
  end.

(** [pause] *)
Definition pause : M unit :=
  on_player Player.pause;;
  s ← get;
  if is_host s then broadcast_command (msg "pause") else mret tt.

(** [seek] *)
Definition seek (time_ms : Z) : M unit :=
  on_player (Player.set_time time_ms);;
  s ← get;
  if is_host s then broadcast_command (with_time time_ms (msg "seek")) else mret tt.

(** [broadcast_playlist] *)
Definition broadcast_playlist : M unit :=
  s ← get;
  let playlist_info := map announce (Playlist.media_files (playlist s)) in
  broadcast_command (with_playlist playlist_info (msg "playlist_info")).

(** The [enumerate] loop of [load_playlist], from position [index] on. *)
Fixpoint load_from (index : Z) (media_paths : list string) : M unit :=
  match media_paths with
  | [] => mret tt
  | path :: rest =>
      info ← lift (get_file_info path);
      let '(name, size, hash) := info in
      let media_file :=
        {| MediaFile.path := path; MediaFile.name := name; MediaFile.size := size;
           MediaFile.hash := hash; MediaFile.index := index |} in
      modify (fun s => set_playlist (Playlist.add_file media_file (playlist s)) s);;
      load_from (index + 1) rest
  end.

(** [load_playlist] *)
Definition load_playlist (folder : string) : M unit :=
  load_from 0 (find_media_files folder);;
  s ← get;
  if is_host s then broadcast_playlist else mret tt.

End Methods.

(** ** The receive loops *)

(** What one [recv] (with its one-second timeout), [data.decode()] and
    [json.loads] deliver:
    - [RecvTimeout]: [recv] raises [socket.timeout];
    - [RecvEmpty]: [recv] returns [b""], the peer has closed;
    - [RecvNotText]: the bytes are not UTF-8, [data.decode()] raises
      [UnicodeDecodeError];
    - [RecvGarbage]: the bytes decode to text that is not JSON, [json.loads]
      raises [json.JSONDecodeError];
    - [RecvError]: [recv] raises any other socket error;
    - [RecvData]: the bytes decode to a JSON object. *)
Inductive recv_event : Type :=
| RecvTimeout
| RecvEmpty
| RecvNotText
| RecvGarbage
| RecvError
| RecvData (command : Command).

(** Whether the loop is still waiting for data or has been left. *)
Inductive loop_end : Type :=
| StillReceiving
| LoopExited.

Section Loops.

(** The dispatcher, and the world it sees while handling one message. *)
Variable handle_command : World -> Command -> option socket -> M unit.

(** The [while self.running] loop of [handle_client]: a timeout continues, a
    [json.JSONDecodeError] is logged and the loop continues, anything else
    that is raised (a [UnicodeDecodeError] of [data.decode()] included) lands
    in the outer [except: pass]. *)
Fixpoint handle_client_loop (client_socket : socket)
    (events : list (World * recv_event)) : M loop_end :=
  match events with
  | [] => mret StillReceiving
  | (w, ev) :: rest =>
      match ev with
      | RecvTimeout => handle_client_loop client_socket rest
      | RecvEmpty => mret LoopExited
      | RecvNotText => mret LoopExited
      | RecvGarbage =>
          print LogDecodeFailed;;
          handle_client_loop client_socket rest
      | RecvError => mret LoopExited
      | RecvData command =>
          fun s =>
            match handle_command w command (Some client_socket) s with
            | (Ok _, s') => handle_client_loop client_socket rest s'
            | (Raise _, s') => (Ok LoopExited, s')
            end
      end
  end.

(** [handle_client], for a given dispatcher: the loop, then the [finally] block once it is left. *)
Definition handle_client_with (client_socket : socket)
    (events : list (World * recv_event)) : M loop_end :=
  r ← handle_client_loop client_socket events;
  match r with
  | StillReceiving => mret StillReceiving
  | LoopExited =>
      s ← get;
      (if contains client_socket (clients s)
       then modify (set_clients (remove_first client_socket (clients s)))
       else mret tt);;
      print LogClientDisconnected;;
      mret LoopExited
  end.

(** The loop of [receive_commands]: only a timeout continues; every other
    exception is printed and breaks. *)
Fixpoint receive_commands_loop (events : list (World * recv_event)) : M loop_end :=
  match events with
  | [] => mret StillReceiving
  | (w, ev) :: rest =>
      match ev with
      | RecvTimeout => receive_commands_loop rest
      | RecvEmpty => mret LoopExited
      | RecvNotText =>
          print (LogReceiveError UnicodeDecodeError);;
          mret LoopExited
      | RecvGarbage =>
          print (LogReceiveError ValueError);;
          mret LoopExited
      | RecvError =>
          print (LogReceiveError OSError);;
          mret LoopExited
      | RecvData command =>
          fun s =>
            match handle_command w command None s with
            | (Ok _, s') => receive_commands_loop rest s'
            | (Raise e, s') => (print (LogReceiveError e);; mret LoopExited) s'
            end
      end
  end.

(** [receive_commands], for a given dispatcher. *)
Definition receive_commands_with (events : list (World * recv_event)) : M loop_end :=
  r ← receive_commands_loop events;
  match r with
  | StillReceiving => mret StillReceiving
  | LoopExited =>
      print LogDisconnectedFromHost;;
      mret LoopExited
  end.

End Loops.

(** ** [main.py] *)

Module Main.

Section Methods.

Variable w : World.

(** [play] *)
Definition play : M unit :=
  on_player Player.play;;
  s ← get;
  if is_host s then
    broadcast_command w (with_time (Player.get_time (player s)) (msg "play"))
  else mret tt.

(** [play_file] *)
Definition play_file (index : Z) : M unit :=
  loaded ← verify_and_load_file w index;
  if (loaded : bool) then
    s ← get;
    if is_host s then
      on_player Player.play;;
      s ← get;
      broadcast_command w
        (with_time (Player.get_time (player s)) (with_index index (msg "play_file")))
    else play
  else mret tt.

(** [next_file] *)
Definition next_file : M unit :=
  s ← get;
  let '(next_media, p) := Playlist.next_file (playlist s) in
  modify (set_playlist p);;
  match next_media with
  | Some m => play_file (MediaFile.index m)
  | None => mret tt
  end.

(** [previous_file] *)
Definition previous_file : M unit :=
  s ← get;
  let '(prev_media, p) := Playlist.previous_file (playlist s) in
  modify (set_playlist p);;
  match prev_media with
  | Some m => play_file (MediaFile.index m)
  | None => mret tt
  end.

(** The target of [handle_sync]: [host_time + int(latency)], where
    [latency = measure_latency() / 2] and [int] truncates towards zero. *)
Definition adjusted_host_time (host_time rtt : Z) : Z :=
  host_time + Z.quot rtt 2.

(** [handle_sync] *)
Definition handle_sync (command : Command) : M unit :=
  s ← get;
  if negb (is_host s) && Player.is_playing (player s) then
    host_time ← lift (subscript "time" (c_time command));
    let current_time := Player.get_time (player s) in
    rtt ← measure_latency w;
    let adjusted := adjusted_host_time host_time rtt in
    let time_diff := current_time - adjusted in
    if Z.abs time_diff >? 1000 then on_player (Player.set_time adjusted)
    else if Z.abs time_diff >? 100 then
      if time_diff >? 0 then on_player (Player.set_rate 95)
      else on_player (Player.set_rate 105)
    else on_player (Player.set_rate 100)
  else mret tt.

(** [handle_command] *)
Definition handle_command (command : Command) (client_socket : option socket) : M unit :=
  cmd_type ← lift (subscript "type" (c_type command));
  if String.eqb cmd_type "playlist_info" then
    playlist_info ← lift (subscript "playlist" (c_playlist command));
    handle_playlist_info w playlist_info
  else if String.eqb cmd_type "play_file" then
    file_index ← lift (subscript "index" (c_index command));
    loaded ← verify_and_load_file w file_index;
    if (loaded : bool) then
      match c_time command with
      | Some t => on_player Player.play;; on_player (Player.set_time t)
      | None => play
      end
    else mret tt
  else if String.eqb cmd_type "play" then
    on_player Player.play;;
    match c_time command with
    | Some t => on_player (Player.set_time t)
    | None => mret tt
    end
  else if String.eqb cmd_type "pause" then pause w
  else if String.eqb cmd_type "seek" then
    time_ms ← lift (subscript "time" (c_time command));
    seek w time_ms
  else if String.eqb cmd_type "sync" then
    s ← get;
    if negb (is_host s) then handle_sync command else mret tt
  else if String.eqb cmd_type "ping" then
    s ← get;
    if is_host s && bool_decide (is_Some client_socket)
    then send_command w (msg "pong") client_socket
    else mret tt
  else if String.eqb cmd_type "request_file" then
    s ← get;
    if is_host s then handle_file_request w command else mret tt
  else mret tt.

(** One round of [sync_playback] after its sleep. *)
Definition sync_playback_step : M unit :=
  s ← get;
  if is_host s && Player.is_playing (player s) then
    broadcast_command w (with_time (Player.get_time (player s)) (msg "sync"))
  else mret tt.

End Methods.

(** [handle_client] and [receive_commands] of this variant. *)
Definition handle_client := handle_client_with handle_command.
Definition receive_commands := receive_commands_with handle_command.

End Main.

(** ** [main2.py] *)

(** [a % b] on Python ints. *)
Definition py_mod (a b : Z) : result Z :=
  if b =? 0 then Raise ZeroDivisionError else Ok (a mod b).

(** [random.randint(a, b)]: an empty range raises [ValueError]; otherwise the
    world's draw is brought into [a..b]. *)
Definition randint (w : World) (a b : Z) : result Z :=
  if b <? a then Raise ValueError else Ok (a + random_draw w mod (b - a + 1)).

Module Main2.

Section Methods.

Variable w : World.

(** [toggle_shuffle] *)
Definition toggle_shuffle : M bool :=
  modify (fun s => set_shuffle_mode (negb (shuffle_mode s)) s);;
  s ← get;
  mret (shuffle_mode s).

(** [play] *)
Definition play (time_ms : option Z) : M unit :=
  match time_ms with
  | Some t => on_player (Player.set_time t)
  | None => mret tt
  end;;
  on_player Player.play;;
  s ← get;
  if is_host s then
    broadcast_command w (with_time (Player.get_time (player s)) (msg "play"))
  else mret tt.

(** [play_file] *)
Definition play_file (index : Z) : M unit :=
  loaded ← verify_and_load_file w index;
  if (loaded : bool) then
    s ← get;
    if is_host s then
      on_player Player.play;;
      s ← get;
      broadcast_command w
        (with_time (Player.get_time (player s)) (with_index index (msg "play_file")))
    else play None
  else mret tt.

(** [play_next] *)
Definition play_next : M unit :=
  s ← get;
  next_index ←
    (if shuffle_mode s
     then lift (randint w 0 (Playlist.len (playlist s) - 1))
     else lift (py_mod (Playlist.current_index (playlist s) + 1)
                       (Playlist.len (playlist s))));
  play_file next_index.

(** [next_file] *)
Definition next_file : M unit :=
  s ← get;
  let '(next_media, p) := Playlist.next_file (playlist s) in
  modify (set_playlist p);;
  match next_media with
  | Some m => play_file (MediaFile.index m)
  | None => mret tt
  end.

(** [previous_file] *)
Definition previous_file : M unit :=
  s ← get;
  let '(prev_media, p) := Playlist.previous_file (playlist s) in
  modify (set_playlist p);;
  match prev_media with
  | Some m => play_file (MediaFile.index m)
  | None => mret tt
  end.

(** The target of [handle_sync]: [host_time + (current_time - sync_time)]. *)
Definition adjusted_host_time (host_time sync_time current_time : Z) : Z :=
  host_time + (current_time - sync_time).

(** [handle_sync] *)
Definition handle_sync (command : Command) : M unit :=
  s ← get;
  if negb (is_host s) then
    host_time ← lift (subscript "time" (c_time command));
    sync_time ← lift (subscript "sync_time" (c_sync_time command));
    let current_time := clock_ms w in
    let adjusted := adjusted_host_time host_time sync_time current_time in
    if Player.is_playing (player s) then
      let current_player_time := Player.get_time (player s) in
      let player_time_diff := current_player_time - adjusted in
      if Z.abs player_time_diff >? 100 then on_player (Player.set_time adjusted)
      else mret tt
    else on_player (Player.set_time adjusted)
  else mret tt.

(** [send_sync_command] *)
Definition send_sync_command : M unit :=
  s ← get;
  if is_host s && Player.is_playing (player s) then
    let current_time := Player.get_time (player s) in
    let sync_time := clock_ms w in
    broadcast_command w
      (with_sync_time sync_time (with_time current_time (msg "sync")))
  else mret tt.

(** [handle_command] *)
Definition handle_command (command : Command) (client_socket : option socket) : M unit :=
  cmd_type ← lift (subscript "type" (c_type command));
  if String.eqb cmd_type "playlist_info" then
    playlist_info ← lift (subscript "playlist" (c_playlist command));
    handle_playlist_info w playlist_info
  else if String.eqb cmd_type "play_file" then
    file_index ← lift (subscript "index" (c_index command));
    loaded ← verify_and_load_file w file_index;
    if (loaded : bool) then play (c_time command) else mret tt
  else if String.eqb cmd_type "play" then play (c_time command)
  else if String.eqb cmd_type "pause" then pause w
  else if String.eqb cmd_type "seek" then
    time_ms ← lift (subscript "time" (c_time command));
    seek w time_ms
  else if String.eqb cmd_type "sync" then
    s ← get;
    if negb (is_host s) then handle_sync command else mret tt
  else if String.eqb cmd_type "request_sync" then
    s ← get;
    if is_host s then send_sync_command else mret tt
  else if String.eqb cmd_type "toggle_shuffle" then
    s ← get;
    if is_host s then
      new_state ← toggle_shuffle;
      broadcast_command w (with_enabled new_state (msg "shuffle_state"))
    else mret tt
  else if String.eqb cmd_type "shuffle_state" then
    s ← get;
    if negb (is_host s) then
      enabled ← lift (subscript "enabled" (c_enabled command));
      modify (set_shuffle_mode enabled)
    else mret tt
  else if String.eqb cmd_type "ping" then
    s ← get;
    if is_host s && bool_decide (is_Some client_socket)
    then send_command w (msg "pong") client_socket
    else mret tt
  else if String.eqb cmd_type "request_file" then
    s ← get;
    if is_host s then handle_file_request w command else mret tt
  else mret tt.

(** The host's part of one round of [sync_playback] once the interval has
    passed. *)
Definition sync_playback_step : M unit :=
  s ← get;
  if is_host s then send_sync_command else mret tt.

End Methods.

(** [handle_client] and [receive_commands] of this variant. *)
Definition handle_client := handle_client_with handle_command.
Definition receive_commands := receive_commands_with handle_command.

End Main2.

(** ** Reading the reconciliation *)

(** The files a client scans: none without a configured folder. *)
Definition local_files (w : World) (s : VLCSync) : list string :=
  match folder_path s with
  | Some folder => if truthy folder then find_media_files w folder else []
  | None => []
  end.

(** The fingerprint of a local file, when it can be read. *)
Definition fingerprint (w : World) (p : string) : option string :=
  match file_info w p with
  | Some (_, _, h) => Some h
  | None => None
  end.

(** Whether the local file [p] has the fingerprint [h]. *)
Definition has_hash (w : World) (h : string) (p : string) : bool :=
  match fingerprint w p with
  | Some h' => String.eqb h' h
  | None => false
  end.

(** The entry a client builds for the announced entry [a]: the path of the
    first scanned file with the announced hash, or the empty path. *)
Definition resolve (w : World) (files : list string) (a : MediaFile.t) : MediaFile.t :=
  {| MediaFile.path := default "" (find (has_hash w (MediaFile.hash a)) files);
     MediaFile.name := MediaFile.name a;
     MediaFile.size := MediaFile.size a;
     MediaFile.hash := MediaFile.hash a;
     MediaFile.index := MediaFile.index a |}.

(** The entries recorded as missing while a list of resolved entries is
    added, on top of what [missing_files] held before. *)
Definition record_missing (resolved : list MediaFile.t) (missing : gmap Z MediaFile.t)
  : gmap Z MediaFile.t :=
  fold_left
    (fun m mf => if truthy (MediaFile.path mf) then m else <[MediaFile.index mf := mf]> m)
    resolved missing.

(** Every present index field is a position of the list: what the data model
    asks of a playlist whose indices are unique and contiguous from 0. *)
Definition indices_in_range (p : Playlist.t) : Prop :=
  forall mf, In mf (Playlist.media_files p) ->
             0 <= MediaFile.index mf < Playlist.len p.

(** Entry [i] carries index [i]: what [load_playlist] builds and
    [broadcast_playlist] announces. *)
Definition indexed_from (start : Z) (l : list MediaFile.t) : Prop :=
  forall (i : nat) mf, l !! i = Some mf -> MediaFile.index mf = start + Z.of_nat i.

(** The state [handle_playlist_info]'s loop leaves once the resolved entries
    have been appended and the unresolved ones recorded. *)
Definition reconciled_state (s : VLCSync) (resolved : list MediaFile.t) : VLCSync :=
  set_missing_files (record_missing resolved (missing_files s))
    (set_playlist
       (Playlist.Build (Playlist.media_files (playlist s) ++ resolved)
                       (Playlist.current_index (playlist s)))
       s).

(** The [playlist_info] message announcing the given entries. *)
Definition playlist_info_msg (announced : list MediaFile.t) : Command :=
  with_playlist (map announce announced) (msg "playlist_info").

(** The round trip [measure_latency] reports on a client: the world's
    measurement when there is a socket to probe, 0 otherwise. *)
Definition measured_rtt (w : World) (s : VLCSync) : Z :=
  match client_socket s with
  | Some _ => rtt_ms w
  | None => 0
  end.

(** What [main.py]'s [handle_sync] does to the player of a playing client
    whose position is [current_time], for the target [adjusted]. *)
Definition rate_nudge (adjusted : Z) (p : Player.t) : Player.t :=
  let time_diff := Player.get_time p - adjusted in
  if Z.abs time_diff >? 1000 then Player.set_time adjusted p
  else if Z.abs time_diff >? 100 then
    if time_diff >? 0 then Player.set_rate 95 p else Player.set_rate 105 p
  else Player.set_rate 100 p.

(** Handling the same message a second time, right after the first. *)
Definition twice {A : Type} (m : M A) : M A := fun s => m (snd (m s)).

(** The tags [handle_command] has a branch for, in [main.py] and in
    [main2.py]. *)
Definition main_tags : list string :=
  ["playlist_info"; "play_file"; "play"; "pause"; "seek"; "sync"; "ping";
   "request_file"].

Definition main2_tags : list string :=
  ["playlist_info"; "play_file"; "play"; "pause"; "seek"; "sync";
   "request_sync"; "toggle_shuffle"; "shuffle_state"; "ping"; "request_file"].

(** [ty] is none of [tags]. *)
Definition unrecognized (tags : list string) (ty : string) : bool :=
  forallb (fun t => negb (String.eqb ty t)) tags.

(** ** Concrete worlds and states used by the examples *)

(** A world with an empty folder, no files, a network that never fails. *)
Definition quiet_world : World :=
  {| scan_folder := fun _ => [];
     file_info := fun _ => None;
     path_exists := fun _ => false;
     send_fails := fun _ => false;
     clock_ms := 0;
     rtt_ms := 0;
     random_draw := 0 |}.

(** The object [VLCSync.__init__] builds before any playlist is loaded; a
    client holds its connection to the host as socket 0. *)
Definition new_sync (host : bool) (folder : option string) : VLCSync :=
  {| is_host := host;
     folder_path := folder;
     playlist := Playlist.init;
     clients := [];
     client_socket := if host then None else Some 0%nat;
     missing_files := ∅;
     shuffle_mode := false;
     player := Player.init;
     sent := [];
     log := [] |}.

(** A media file record with the given path and index. *)
Definition entry (path : string) (index : Z) : MediaFile.t :=
  {| MediaFile.path := path; MediaFile.name := path; MediaFile.size := 1;
     MediaFile.hash := path; MediaFile.index := index |}.

(** The scenario of the specification: the host announces A (hash h1) and
    B (hash h2); the client's folder holds one file, with hash h2. *)
Definition scenario_world : World :=
  {| scan_folder := fun _ => ["media/b.mp4"];
     file_info := fun p =>
       if String.eqb p "media/b.mp4" then Some ("b.mp4", 20, "h2") else None;
     path_exists := fun p => String.eqb p "media/b.mp4";
     send_fails := fun _ => false;
     clock_ms := 0;
     rtt_ms := 0;
     random_draw := 0 |}.

Definition scenario_announced : list MediaFile.t :=
  [ {| MediaFile.path := "host/a.mp4"; MediaFile.name := "a.mp4";
       MediaFile.size := 10; MediaFile.hash := "h1"; MediaFile.index := 0 |};
    {| MediaFile.path := "host/b.mp4"; MediaFile.name := "b.mp4";
       MediaFile.size := 20; MediaFile.hash := "h2"; MediaFile.index := 1 |} ].

(** The client of the scenario before the announcement arrives. *)
Definition scenario_client : VLCSync := new_sync false (Some "media").

(** The client of the scenario after reconciliation: A unresolved at
    position 0, B resolved at position 1. *)
Definition scenario_reconciled : VLCSync :=
  set_playlist
    (Playlist.Build
       [ {| MediaFile.path := ""; MediaFile.name := "a.mp4";
            MediaFile.size := 10; MediaFile.hash := "h1"; MediaFile.index := 0 |};
         {| MediaFile.path := "media/b.mp4"; MediaFile.name := "b.mp4";
            MediaFile.size := 20; MediaFile.hash := "h2"; MediaFile.index := 1 |} ]
       (-1))
    scenario_client.

(** The [sync] message of [main2.py]: host position and host wall clock. *)
Definition sync_msg (host_time sync_time : Z) : Command :=
  with_sync_time sync_time (with_time host_time (msg "sync")).

(** The [sync] message of [main.py]: the host position only. *)
Definition sync_msg_untimed (host_time : Z) : Command :=
  with_time host_time (msg "sync").

(** A world like [quiet_world] whose clock reads [now] and whose latency
    probe measured a round trip of [rtt] milliseconds. *)
Definition world_at (now rtt : Z) : World :=
  {| scan_folder := fun _ => [];
     file_info := fun _ => None;
     path_exists := fun _ => false;
     send_fails := fun _ => false;
     clock_ms := now;
     rtt_ms := rtt;
     random_draw := 0 |}.

(** A client with a file loaded, at position [pos] with rate [rate]. *)
Definition client_at (is_playing : bool) (pos rate : Z) : VLCSync :=
  set_player
    {| Player.media := Some "media/b.mp4"; Player.playing := is_playing;
       Player.time := pos; Player.rate := rate |}
    (new_sync false (Some "media")).

(** A host with a file loaded and the given peers connected. *)
Definition host_at (is_playing : bool) (pos : Z) (peers : list socket) : VLCSync :=
  set_clients peers
    (set_player
       {| Player.media := Some "media/b.mp4"; Player.playing := is_playing;
          Player.time := pos; Player.rate := 100 |}
       (new_sync true (Some "media"))).

(** A client whose single entry resolves locally but was announced with
    index 5: the index is no position of the one-element list. *)
Definition misnumbered_client : VLCSync :=
  set_playlist (Playlist.Build [entry "media/b.mp4" 5] (-1)) scenario_client.

(** An announcement whose single entry, B (hash h2), carries index 5, and
    the client of the scenario once it has reconciled it: B resolves to the
    local file and keeps the announced index. *)
Definition misnumbered_announced : list MediaFile.t :=
  [ {| MediaFile.path := "host/b.mp4"; MediaFile.name := "b.mp4";
       MediaFile.size := 20; MediaFile.hash := "h2"; MediaFile.index := 5 |} ].

Definition misnumbered_reconciled : VLCSync :=
  set_playlist
    (Playlist.Build
       [ {| MediaFile.path := "media/b.mp4"; MediaFile.name := "b.mp4";
            MediaFile.size := 20; MediaFile.hash := "h2"; MediaFile.index := 5 |} ]
       (-1))
    scenario_client.

(** The world of the scenario with a second media file in the folder that
    exists but cannot be read: [os.path.getsize] or [open] raise on it. *)
Definition unreadable_world : World :=
  {| scan_folder := fun _ => ["media/b.mp4"; "media/c.mp4"];
     file_info := fun p =>
       if String.eqb p "media/b.mp4" then Some ("b.mp4", 20, "h2") else None;
     path_exists := fun p =>
       String.eqb p "media/b.mp4" || String.eqb p "media/c.mp4";
     send_fails := fun _ => false;
     clock_ms := 0;
     rtt_ms := 0;
     random_draw := 0 |}.

(** The host announces B (hash h2) first and A (hash h1) second. *)
Definition unreadable_announced : list MediaFile.t :=
  [ {| MediaFile.path := "host/b.mp4"; MediaFile.name := "b.mp4";
       MediaFile.size := 20; MediaFile.hash := "h2"; MediaFile.index := 0 |};
    {| MediaFile.path := "host/a.mp4"; MediaFile.name := "a.mp4";
       MediaFile.size := 10; MediaFile.hash := "h1"; MediaFile.index := 1 |} ].

(** The client of the scenario when the search for A reached the unreadable
    file: B is in the playlist, A is not, nothing is recorded missing. *)
Definition unreadable_interrupted : VLCSync :=
  set_playlist
    (Playlist.Build
       [ {| MediaFile.path := "media/b.mp4"; MediaFile.name := "b.mp4";
            MediaFile.size := 20; MediaFile.hash := "h2"; MediaFile.index := 0 |} ]
       (-1))
    scenario_client.

(** ** Further methods and readings *)

(** A peer whose socket accepts a send. *)
Definition alive (w : World) (c : socket) : bool := negb (send_fails w c).

(** The messages the coordinator builds. *)
Definition request_file_msg (file_index : Z) : Command :=
  with_index file_index (msg "request_file").

Definition shuffle_state_msg (enabled : bool) : Command :=
  with_enabled enabled (msg "shuffle_state").

Definition seek_msg (time_ms : Z) : Command :=
  with_time time_ms (msg "seek").

Definition play_file_msg (file_index time_ms : Z) : Command :=
  with_time time_ms (with_index file_index (msg "play_file")).

(** What a call leaves alone when it only rebuilds the playlist and records
    missing files: everything but [playlist], [missing_files] and [log]. *)
Definition same_session (s s' : VLCSync) : Prop :=
  is_host s' = is_host s /\ folder_path s' = folder_path s /\
  clients s' = clients s /\ client_socket s' = client_socket s /\
  shuffle_mode s' = shuffle_mode s /\ player s' = player s /\
  sent s' = sent s.

(** Every key of [m] is a key of [m']. *)
Definition keeps_keys (m m' : gmap Z MediaFile.t) : Prop :=
  forall k, is_Some (m !! k) -> is_Some (m' !! k).



(** The state with [peer] taken out of [clients], as the [finally] block of
    [handle_client] leaves it. *)
Definition drop_peer (peer : socket) (s : VLCSync) : VLCSync :=
  if contains peer (clients s)
  then set_clients (remove_first peer (clients s)) s
  else s.

(** The entry [load_playlist] builds for a scanned path at a position. *)
Definition loaded_entry (w : World) (index : Z) (path : string) : option MediaFile.t :=
  match file_info w path with
  | Some (name, size, hash) =>
      Some {| MediaFile.path := path; MediaFile.name := name; MediaFile.size := size;
              MediaFile.hash := hash; MediaFile.index := index |}
  | None => None
  end.

(** A host with two peers, the second of which has gone away. *)
Definition lossy_world : World :=
  {| scan_folder := fun _ => ["media/b.mp4"];
     file_info := fun p =>
       if String.eqb p "media/b.mp4" then Some ("b.mp4", 20, "h2") else None;
     path_exists := fun p => String.eqb p "media/b.mp4";
     send_fails := fun c => Nat.eqb c 2;
     clock_ms := 7000;
     rtt_ms := 0;
     random_draw := 0 |}.

(* ===================================================================== *)
(** * Properties *)
(* ===================================================================== *)

(** ** Playlist *)

Lemma len_cons (m : MediaFile.t) (l : list MediaFile.t) (k : Z) :
  0 < Playlist.len (Playlist.Build (m :: l) k).
Proof. unfold Playlist.len. simpl. lia. Qed.

Lemma len_add_file (m : MediaFile.t) (p : Playlist.t) :
  Playlist.len (Playlist.add_file m p) = Playlist.len p + 1.
Proof.
  unfold Playlist.len, Playlist.add_file. simpl.
  rewrite length_app. simpl. lia.
Qed.

(** [set_current_index] either refuses and changes nothing, or accepts an
    index that is a position of the list. *)
Lemma set_current_index_spec (i : Z) (p : Playlist.t) :
  (0 <= i < Playlist.len p /\
   Playlist.set_current_index i p =
     (true, Playlist.Build (Playlist.media_files p) i)) \/
  (~ 0 <= i < Playlist.len p /\ Playlist.set_current_index i p = (false, p)).
Proof.
  unfold Playlist.set_current_index.
  destruct (0 <=? i) eqn:E1; destruct (i <? Playlist.len p) eqn:E2; simpl;
    try (left; split; [lia | reflexivity]); right; split; try reflexivity; lia.
Qed.

(** The cursor after [next_file] on a non-empty playlist. *)
Lemma next_file_cursor (m : MediaFile.t) (l : list MediaFile.t) (k : Z) :
  let p := Playlist.Build (m :: l) k in
  Playlist.current_index (snd (Playlist.next_file p)) = (k + 1) mod Playlist.len p.
Proof. reflexivity. Qed.

Lemma previous_file_cursor (m : MediaFile.t) (l : list MediaFile.t) (k : Z) :
  let p := Playlist.Build (m :: l) k in
  Playlist.current_index (snd (Playlist.previous_file p)) = (k - 1) mod Playlist.len p.
Proof. reflexivity. Qed.

(** One operation keeps the cursor invariant. *)
Lemma step_cursor_ok (o : Playlist.op) (p : Playlist.t) :
  Playlist.cursor_ok p -> Playlist.cursor_ok (Playlist.step o p).
Proof.
  unfold Playlist.cursor_ok. intros H.
  destruct o as [mf | i | | ]; simpl.
  - rewrite len_add_file. simpl. lia.
  - destruct (set_current_index_spec i p) as [[Hi ->] | [_ ->]]; simpl.
    + right. unfold Playlist.len in *. simpl. lia.
    + exact H.
  - unfold Playlist.next_file. destruct p as [[| m l] k]; simpl in *.
    + exact H.
    + right. apply Z.mod_pos_bound. apply (len_cons m l k).
  - unfold Playlist.previous_file. destruct p as [[| m l] k]; simpl in *.
    + exact H.
    + right. apply Z.mod_pos_bound. apply (len_cons m l k).
Qed.

Lemma run_cursor_ok (ops : list Playlist.op) :
  forall p, Playlist.cursor_ok p -> Playlist.cursor_ok (Playlist.run ops p).
Proof.
  induction ops as [| o ops IH]; intros p H; simpl.
  - exact H.
  - apply IH. apply step_cursor_ok. exact H.
Qed.

(** C10. Every playlist reached from the freshly constructed one by any
    sequence of [add_file], [set_current_index], [next_file] and
    [previous_file] has a cursor that is -1 or a valid position; moreover
    [set_current_index] leaves the playlist alone unless the index it stores
    is a valid position, and [next_file] and [previous_file] on a non-empty
    playlist leave the cursor in range whatever it was before. *)
Theorem playlist_cursor_invariant :
  (forall ops : list Playlist.op,
      Playlist.cursor_ok (Playlist.run ops Playlist.init)) /\
  (forall (i : Z) (p : Playlist.t),
      snd (Playlist.set_current_index i p) = p \/
      (Playlist.current_index (snd (Playlist.set_current_index i p)) = i /\
       0 <= i < Playlist.len (snd (Playlist.set_current_index i p)))) /\
  (forall (m : MediaFile.t) (l : list MediaFile.t) (k : Z),
      let p := Playlist.Build (m :: l) k in
      0 <= Playlist.current_index (snd (Playlist.next_file p)) < Playlist.len p /\
      0 <= Playlist.current_index (snd (Playlist.previous_file p)) < Playlist.len p).
Proof.
  split; [| split].
  - intros ops. apply run_cursor_ok. left. reflexivity.
  - intros i p.
    destruct (set_current_index_spec i p) as [[Hi ->] | [_ ->]]; simpl.
    + right. split; [reflexivity |]. unfold Playlist.len in *. simpl. exact Hi.
    + left. reflexivity.
  - intros m l k p. subst p.
    rewrite next_file_cursor, previous_file_cursor.
    split; apply Z.mod_pos_bound; apply (len_cons m l k).
Qed.

(** ** Reconciliation *)

(** Unfold the monad of methods down to functions on states. *)
Ltac munfold :=
  unfold mbind, M_bind, bind, mret, M_ret, ret, lift, modify, get, print,
    on_player, raise in *.

Section Reconciliation.

Variable w : World.

Lemma first_match_find (h : string) (paths : list string) :
  (forall p, In p paths -> is_Some (file_info w p)) ->
  first_match w paths (Some h) = Ok (find (has_hash w h) paths).
Proof.
  induction paths as [| p rest IH]; intros Hread; simpl.
  - reflexivity.
  - destruct (Hread p (or_introl eq_refl)) as [[[n sz] lh] Hinfo].
    unfold get_file_info, has_hash, fingerprint. rewrite Hinfo.
    destruct (String.eqb lh h); [reflexivity |].
    apply IH. intros q Hq. apply Hread. right. exact Hq.
Qed.

Lemma find_matching_file_find (a : MediaFile.t) (s : VLCSync) :
  (forall p, In p (local_files w s) -> is_Some (file_info w p)) ->
  find_matching_file w (announce a) s =
    (Ok (find (has_hash w (MediaFile.hash a)) (local_files w s)), s).
Proof.
  unfold find_matching_file, local_files. munfold.
  destruct (folder_path s) as [folder |]; [| reflexivity].
  destruct (truthy folder); [| reflexivity].
  intros Hread. simpl. rewrite (first_match_find _ _ Hread). reflexivity.
Qed.

Lemma has_hash_fingerprint (h p : string) :
  has_hash w h p = true <-> fingerprint w p = Some h.
Proof.
  unfold has_hash. destruct (fingerprint w p) as [h' |].
  - rewrite String.eqb_eq. split; congruence.
  - split; discriminate.
Qed.

(** A scanned path that is found is truthy, so [local_path if local_path
    else ""] is the found path, and the empty path when nothing is found. *)
Lemma found_truthy (files : list string) (h : string) :
  (forall p, In p files -> truthy p = true) ->
  truthy_opt (find (has_hash w h) files) =
    truthy (default "" (find (has_hash w h) files)).
Proof.
  intros Hne. destruct (find (has_hash w h) files) eqn:E; reflexivity.
Qed.

Lemma local_files_set_playlist (x : Playlist.t) (s : VLCSync) :
  local_files w (set_playlist x s) = local_files w s.
Proof. reflexivity. Qed.

Lemma local_files_set_missing_files (x : gmap Z MediaFile.t) (s : VLCSync) :
  local_files w (set_missing_files x s) = local_files w s.
Proof. reflexivity. Qed.

Lemma reconcile_resolve (announced : list MediaFile.t) :
  forall (missing : list MediaFile.t) (s : VLCSync),
  (forall p, In p (local_files w s) -> is_Some (file_info w p)) ->
  (forall p, In p (local_files w s) -> truthy p = true) ->
  exists missing',
    reconcile w (map announce announced) missing s =
      (Ok missing',
       reconciled_state s (map (resolve w (local_files w s)) announced)).
Proof.
  induction announced as [| a rest IH]; intros missing s Hread Hne.
  - exists missing. simpl. munfold. f_equal.
    unfold reconciled_state, record_missing. simpl. rewrite app_nil_r.
    destruct s as [? ? [? ?] ? ? ? ? ? ? ?]. reflexivity.
  - simpl. munfold.
    rewrite (find_matching_file_find a s Hread). simpl.
    rewrite (found_truthy _ (MediaFile.hash a) Hne).
    destruct (find (has_hash w (MediaFile.hash a)) (local_files w s)) as [p |] eqn:E;
      simpl.
    + assert (Hp : truthy p = true).
      { apply Hne. apply (List.find_some _ _ E). }
      assert (Hr : resolve w (local_files w s) a =
                   MediaFile.Build p (MediaFile.name a) (MediaFile.size a)
                     (MediaFile.hash a) (MediaFile.index a)).
      { unfold resolve. rewrite E. reflexivity. }
      rewrite Hr, Hp. simpl.
      match goal with
      | |- context [reconcile w _ ?m ?s1] =>
          destruct (IH m s1) as [missing' Hrun];
            [rewrite local_files_set_playlist; assumption
            |rewrite local_files_set_playlist; assumption |]
      end.
      exists missing'. rewrite Hrun, local_files_set_playlist. f_equal.
      unfold reconciled_state, record_missing. simpl. rewrite ?Hp.
      rewrite <- app_assoc. reflexivity.
    + assert (Hr : resolve w (local_files w s) a =
                   MediaFile.Build "" (MediaFile.name a) (MediaFile.size a)
                     (MediaFile.hash a) (MediaFile.index a)).
      { unfold resolve. rewrite E. reflexivity. }
      rewrite Hr. simpl.
      match goal with
      | |- context [reconcile w _ ?m ?s1] =>
          destruct (IH m s1) as [missing' Hrun];
            [rewrite local_files_set_missing_files, local_files_set_playlist; assumption
            |rewrite local_files_set_missing_files, local_files_set_playlist; assumption |]
      end.
      exists missing'.
      rewrite Hrun, local_files_set_missing_files, local_files_set_playlist. f_equal.
      unfold reconciled_state, record_missing. simpl.
      rewrite <- app_assoc. reflexivity.
Qed.

Lemma handle_playlist_info_state (announced : list MediaFile.t) (s : VLCSync) :
  (forall p, In p (local_files w s) -> is_Some (file_info w p)) ->
  (forall p, In p (local_files w s) -> truthy p = true) ->
  exists s',
    handle_playlist_info w (map announce announced) s = (Ok tt, s') /\
    playlist s' =
      Playlist.Build (map (resolve w (local_files w s)) announced) (-1) /\
    missing_files s' =
      record_missing (map (resolve w (local_files w s)) announced) (missing_files s) /\
    player s' = player s /\ sent s' = sent s.
Proof.
  intros Hread Hne. unfold handle_playlist_info. munfold.
  destruct (reconcile_resolve announced [] (set_playlist Playlist.init s))
    as [missing' Hrun]; try (rewrite local_files_set_playlist; assumption).
  rewrite Hrun, local_files_set_playlist.
  destruct missing' as [| m ms]; eexists; (split; [reflexivity |]);
    simpl; repeat split; reflexivity.
Qed.

Lemma record_missing_keeps (resolved : list MediaFile.t) :
  forall (m : gmap Z MediaFile.t) (k : Z),
    is_Some (m !! k) -> is_Some (record_missing resolved m !! k).
Proof.
  induction resolved as [| r rest IH]; intros m k Hk; simpl.
  - exact Hk.
  - apply IH. destruct (truthy (MediaFile.path r)); [exact Hk |].
    destruct (decide (MediaFile.index r = k)) as [-> | Hne].
    + rewrite lookup_insert_eq. eauto.
    + rewrite lookup_insert_ne by exact Hne. exact Hk.
Qed.

Lemma record_missing_records (resolved : list MediaFile.t) :
  forall (m : gmap Z MediaFile.t) (mf : MediaFile.t),
    In mf resolved -> truthy (MediaFile.path mf) = false ->
    is_Some (record_missing resolved m !! MediaFile.index mf).
Proof.
  induction resolved as [| r rest IH]; intros m mf Hin Hpath; simpl.
  - destruct Hin.
  - destruct Hin as [-> | Hin].
    + rewrite Hpath. apply record_missing_keeps.
      rewrite lookup_insert_eq. eauto.
    + apply IH; assumption.
Qed.

Lemma lookup_map {A B : Type} (f : A -> B) (l : list A) :
  forall (i : nat) (a : A), l !! i = Some a -> map f l !! i = Some (f a).
Proof.
  induction l as [| x l IH]; intros [| i] a H; simpl in *; try discriminate.
  - congruence.
  - apply IH. exact H.
Qed.

Lemma lookup_In {A : Type} (l : list A) :
  forall (i : nat) (a : A), l !! i = Some a -> In a l.
Proof.
  induction l as [| x l IH]; intros [| i] a H; simpl in *; try discriminate.
  - left. congruence.
  - right. apply (IH i). exact H.
Qed.

(** When some scanned file has the hash, the first one that has it is found. *)
Lemma find_has_hash_some (files : list string) (h p : string) :
  In p files -> fingerprint w p = Some h ->
  exists q, find (has_hash w h) files = Some q /\ In q files /\
            fingerprint w q = Some h.
Proof.
  intros Hin Hfp.
  destruct (find (has_hash w h) files) as [q |] eqn:E.
  - destruct (List.find_some _ _ E) as [Hq Hh].
    exists q. repeat split; [exact Hq | apply has_hash_fingerprint; exact Hh].
  - pose proof (List.find_none _ _ E p Hin) as Hno.
    apply has_hash_fingerprint in Hfp. congruence.
Qed.

Lemma find_has_hash_none (files : list string) (h : string) :
  (forall p, In p files -> fingerprint w p <> Some h) ->
  find (has_hash w h) files = None.
Proof.
  intros Hno. destruct (find (has_hash w h) files) as [q |] eqn:E; [| reflexivity].
  destruct (List.find_some _ _ E) as [Hq Hh].
  apply has_hash_fingerprint in Hh. destruct (Hno q Hq Hh).
Qed.

End Reconciliation.

Lemma handle_command_playlist_info (w : World) (announced : list MediaFile.t)
    (from : option socket) (s : VLCSync) :
  Main.handle_command w (playlist_info_msg announced) from s =
    handle_playlist_info w (map announce announced) s /\
  Main2.handle_command w (playlist_info_msg announced) from s =
    handle_playlist_info w (map announce announced) s.
Proof. split; reflexivity. Qed.

(** C1. A client that receives a [playlist_info] message announcing the
    entries [announced] (each with name, size, hash and index), and whose
    scanned files are readable, rebuilds its playlist with exactly one entry
    per announced entry, in the announced order and with the announced name,
    size, hash and index.  The entry's path is the path of the first scanned
    file whose fingerprint is the announced hash: if some scanned file has
    that fingerprint the path is non-empty and names such a file, and if none
    has it the path is empty and the entry's index is a key of
    [missing_files].  Both variants of the dispatcher behave so. *)
Theorem handle_playlist_info_reconciles (w : World) (s : VLCSync)
    (announced : list MediaFile.t) (from : option socket) :
  (forall p, In p (local_files w s) -> is_Some (file_info w p)) ->
  (forall p, In p (local_files w s) -> truthy p = true) ->
  exists s',
    Main2.handle_command w (playlist_info_msg announced) from s = (Ok tt, s') /\
    Main.handle_command w (playlist_info_msg announced) from s = (Ok tt, s') /\
    length (Playlist.media_files (playlist s')) = length announced /\
    forall (i : nat) (a : MediaFile.t), announced !! i = Some a ->
      exists mf,
        Playlist.media_files (playlist s') !! i = Some mf /\
        MediaFile.name mf = MediaFile.name a /\
        MediaFile.size mf = MediaFile.size a /\
        MediaFile.hash mf = MediaFile.hash a /\
        MediaFile.index mf = MediaFile.index a /\
        MediaFile.path mf =
          default "" (find (has_hash w (MediaFile.hash a)) (local_files w s)) /\
        (forall p, In p (local_files w s) ->
                   fingerprint w p = Some (MediaFile.hash a) ->
                   In (MediaFile.path mf) (local_files w s) /\
                   fingerprint w (MediaFile.path mf) = Some (MediaFile.hash a) /\
                   MediaFile.path mf <> "") /\
        ((forall p, In p (local_files w s) ->
                    fingerprint w p <> Some (MediaFile.hash a)) ->
         MediaFile.path mf = "" /\
         is_Some (missing_files s' !! MediaFile.index a)).
Proof.
  intros Hread Hne.
  destruct (handle_playlist_info_state w announced s Hread Hne)
    as (s' & Hrun & Hpl & Hmiss & _ & _).
  exists s'.
  destruct (handle_command_playlist_info w announced from s) as [H1 H2].
  rewrite H1, H2. split; [exact Hrun |]. split; [exact Hrun |].
  rewrite Hpl. simpl. split; [apply length_map |].
  intros i a Hi. exists (resolve w (local_files w s) a).
  split; [apply lookup_map; exact Hi |].
  repeat (split; [reflexivity |]). split.
  - intros p Hp Hfp.
    destruct (find_has_hash_some w _ _ _ Hp Hfp) as (q & Hq & Hin & Hfq).
    simpl. rewrite Hq. simpl. repeat split; try assumption.
    intros ->. specialize (Hne _ Hin). discriminate.
  - intros Hnone. simpl. rewrite (find_has_hash_none w _ _ Hnone). simpl.
    split; [reflexivity |]. rewrite Hmiss.
    change (MediaFile.index a)
      with (MediaFile.index (resolve w (local_files w s) a)).
    apply record_missing_records.
    + apply in_map. apply (lookup_In _ i). exact Hi.
    + simpl. rewrite (find_has_hash_none w _ _ Hnone). reflexivity.
Qed.

(** The scenario of the specification, through the theorem: the announced A
    is missing (empty path, index 0 recorded), the announced B resolves to
    the local file. *)
Lemma handle_playlist_info_reconciles_scenario :
  exists s',
    Main2.handle_command scenario_world (playlist_info_msg scenario_announced)
      None scenario_client = (Ok tt, s') /\
    length (Playlist.media_files (playlist s')) = 2%nat /\
    (exists mf, Playlist.media_files (playlist s') !! 0%nat = Some mf /\
                MediaFile.path mf = "" /\ is_Some (missing_files s' !! 0)) /\
    (exists mf, Playlist.media_files (playlist s') !! 1%nat = Some mf /\
                MediaFile.path mf = "media/b.mp4").
Proof.
  assert (Hread : forall p, In p (local_files scenario_world scenario_client) ->
                            is_Some (file_info scenario_world p)).
  { intros p [<- | []]. eexists. reflexivity. }
  assert (Hne : forall p, In p (local_files scenario_world scenario_client) ->
                          truthy p = true).
  { intros p [<- | []]. reflexivity. }
  destruct (handle_playlist_info_reconciles scenario_world scenario_client
              scenario_announced None Hread Hne)
    as (s' & Hrun & _ & Hlen & Hent).
  exists s'. split; [exact Hrun |]. split; [exact Hlen |]. split.
  - destruct (Hent 0%nat _ eq_refl) as (mf & Hmf & _ & _ & _ & _ & _ & _ & Hmiss).
    exists mf. split; [exact Hmf |]. apply Hmiss.
    intros p [<- | []]. discriminate.
  - destruct (Hent 1%nat _ eq_refl) as (mf & Hmf & _ & _ & _ & _ & Hpath & _).
    exists mf. split; [exact Hmf | exact Hpath].
Defined.

(** C1 as stated fails when a scanned file cannot be read.  The client's
    folder holds the readable B and an unreadable file; the host announces B
    and A.  B resolves at once; the search for A fingerprints every scanned
    file, [get_file_info] raises on the unreadable one and nothing catches
    it before the receive loop.  Two entries were announced and the playlist
    holds one; A has neither an entry with an empty path nor a record in
    [missing_files]; the client prints the error and leaves its receive
    loop.  Both variants of the dispatcher behave so. *)
Lemma handle_playlist_info_unreadable_file :
  Main2.handle_command unreadable_world (playlist_info_msg unreadable_announced)
    None scenario_client = (Raise OSError, unreadable_interrupted) /\
  Main.handle_command unreadable_world (playlist_info_msg unreadable_announced)
    None scenario_client = (Raise OSError, unreadable_interrupted) /\
  length unreadable_announced = 2%nat /\
  length (Playlist.media_files (playlist unreadable_interrupted)) = 1%nat /\
  missing_files unreadable_interrupted = ∅ /\
  Main2.receive_commands
    [(unreadable_world, RecvData (playlist_info_msg unreadable_announced));
     (unreadable_world, RecvData (msg "pause"))] scenario_client =
    (Ok LoopExited,
     set_log [LogReceiveError OSError; LogDisconnectedFromHost]
       unreadable_interrupted).
Proof. repeat split. Qed.

(** ** The load gate *)

Lemma lookup_index_found (file_index : Z) (p : Playlist.t) (mf : MediaFile.t) :
  lookup_index file_index p = Some mf ->
  In mf (Playlist.media_files p) /\ MediaFile.index mf = file_index.
Proof.
  unfold lookup_index. intros H.
  destruct (List.find_some _ _ H) as [Hin Heq].
  split; [exact Hin | lia].
Qed.

(** A list whose entry [i] carries index [i] has all its indices in range. *)
Lemma indexed_in_range (l : list MediaFile.t) (k : Z) :
  indexed_from 0 l -> indices_in_range (Playlist.Build l k).
Proof.
  intros Hidx mf Hin. unfold Playlist.len. simpl in *.
  apply list_elem_of_In, list_elem_of_lookup in Hin. destruct Hin as [i Hi].
  rewrite (Hidx i mf Hi). apply lookup_lt_Some in Hi. lia.
Qed.

(** C2, as the code has it.  [verify_and_load_file] for any index and any
    playlist.  If no entry carries the index the call returns [False] and
    leaves playlist, player and network alone.  If the entry's path does not
    exist on disk the call returns [False], leaves playlist (cursor
    included) and player (loaded media included) unchanged, and a client
    hands exactly one [request_file] message for that index to its socket to
    the host, while a host sends nothing.  If the entry exists and its path
    exists, the call returns [True], the entries are unchanged and the
    player's media is the path; the cursor becomes the index when the index
    is a position of the playlist (0 <= index < number of entries), as it is
    whenever every index field is a valid position, and stays where it was
    when it is not. *)
Theorem verify_and_load_file_gate (w : World) (s : VLCSync) (file_index : Z) :
  (lookup_index file_index (playlist s) = None ->
   exists s', verify_and_load_file w file_index s = (Ok false, s') /\
              playlist s' = playlist s /\ player s' = player s /\
              sent s' = sent s) /\
  (forall mf, lookup_index file_index (playlist s) = Some mf ->
              path_exists w (MediaFile.path mf) = false ->
   exists s', verify_and_load_file w file_index s = (Ok false, s') /\
              playlist s' = playlist s /\ player s' = player s /\
              (is_host s = true -> sent s' = sent s) /\
              (forall c, is_host s = false -> client_socket s = Some c ->
                 sent s' =
                   (sent s ++ [(c, with_index file_index (msg "request_file"))])%list)) /\
  (forall mf, lookup_index file_index (playlist s) = Some mf ->
              path_exists w (MediaFile.path mf) = true ->
   exists s', verify_and_load_file w file_index s = (Ok true, s') /\
              Playlist.media_files (playlist s') = Playlist.media_files (playlist s) /\
              player s' = Player.set_media (MediaFile.path mf) (player s) /\
              sent s' = sent s /\
              (0 <= file_index < Playlist.len (playlist s) ->
                 Playlist.current_index (playlist s') = file_index) /\
              (~ 0 <= file_index < Playlist.len (playlist s) ->
                 Playlist.current_index (playlist s') =
                   Playlist.current_index (playlist s)) /\
              (indices_in_range (playlist s) ->
                 Playlist.current_index (playlist s') = file_index)).
Proof.
  unfold verify_and_load_file. munfold. repeat split.
  - intros ->. eexists. split; [reflexivity |]. simpl. auto.
  - intros mf -> Hex. rewrite Hex. simpl.
    unfold request_file, send_command. munfold. simpl.
    destruct (is_host s) eqn:Hhost; simpl.
    + eexists. split; [reflexivity |]. simpl.
      repeat split; try reflexivity. intros c Hc. discriminate.
    + destruct (client_socket s) as [c |] eqn:Hsock; simpl.
      * destruct (send_fails w c); simpl.
        -- destruct (contains c (clients s)); simpl;
             (eexists; split; [reflexivity |]); simpl;
             (repeat split; try reflexivity; try discriminate);
             intros c' _ Hc'; injection Hc' as <-; reflexivity.
        -- eexists. split; [reflexivity |]. simpl.
           repeat split; try reflexivity; try discriminate.
           intros c' _ Hc'. injection Hc' as <-. reflexivity.
      * eexists. split; [reflexivity |]. simpl.
        repeat split; try reflexivity; try discriminate.
  - intros mf Hmf Hex. rewrite Hmf, Hex. simpl.
    destruct (lookup_index_found _ _ _ Hmf) as [Hin Hidx].
    eexists. split; [reflexivity |]. simpl.
    destruct (set_current_index_spec file_index (playlist s)) as [[Hi ->] | [Hno ->]];
      simpl.
    + split; [reflexivity |]. split; [reflexivity |]. split; [reflexivity |].
      split; [reflexivity |]. split; [intros Hout; contradiction | reflexivity].
    + split; [reflexivity |]. split; [reflexivity |]. split; [reflexivity |].
      split; [intros Hi; contradiction |]. split; [reflexivity |].
      intros Hrange. pose proof (Hrange mf Hin) as Hr. rewrite Hidx in Hr.
      contradiction.
Qed.

(** The gate on the reconciled client of the scenario: index 1 loads and
    moves the cursor, index 0 is refused and asks the host for the file. *)
Lemma verify_and_load_file_gate_scenario :
  (exists s', verify_and_load_file scenario_world 1 scenario_reconciled = (Ok true, s') /\
              Playlist.current_index (playlist s') = 1) /\
  (exists s', verify_and_load_file scenario_world 0 scenario_reconciled = (Ok false, s') /\
              playlist s' = playlist scenario_reconciled /\
              sent s' = [(0%nat, with_index 0 (msg "request_file"))]).
Proof.
  destruct (verify_and_load_file_gate scenario_world scenario_reconciled 1)
    as (_ & _ & Hload).
  destruct (verify_and_load_file_gate scenario_world scenario_reconciled 0)
    as (_ & Hgate & _).
  split.
  - destruct (Hload _ eq_refl eq_refl) as (s' & Hrun & _ & _ & _ & Hcur & _).
    exists s'. split; [exact Hrun |]. apply Hcur. vm_compute. intuition discriminate.
  - destruct (Hgate _ eq_refl eq_refl) as (s' & Hrun & Hpl & _ & _ & Hsent).
    exists s'. repeat split; try assumption.
    apply (Hsent 0%nat); reflexivity.
Defined.

(** C2 as stated fails on a playlist rebuilt from an announcement that
    numbers its single entry 5.  The client of the scenario reconciles that
    [playlist_info]; the entry with index 5 exists and so does its file.
    [verify_and_load_file(5)] returns [True] and loads the file, and the
    cursor is not 5 but still -1; the [play_file] message for index 5 starts
    playback and leaves the cursor at -1 as well. *)
Lemma verify_and_load_file_leaves_cursor :
  Main2.handle_command scenario_world (playlist_info_msg misnumbered_announced)
    None scenario_client = (Ok tt, misnumbered_reconciled) /\
  (exists mf, lookup_index 5 (playlist misnumbered_reconciled) = Some mf /\
              path_exists scenario_world (MediaFile.path mf) = true) /\
  verify_and_load_file scenario_world 5 misnumbered_reconciled =
    (Ok true,
     set_player (Player.set_media "media/b.mp4" Player.init) misnumbered_reconciled) /\
  Playlist.current_index
    (playlist (snd (verify_and_load_file scenario_world 5 misnumbered_reconciled)))
    = -1 /\
  Main2.handle_command scenario_world (play_file_msg 5 0) None
    misnumbered_reconciled =
    (Ok tt,
     set_player
       {| Player.media := Some "media/b.mp4"; Player.playing := true;
          Player.time := 0; Player.rate := 100 |}
       misnumbered_reconciled) /\
  Playlist.current_index
    (playlist
       (snd (Main2.handle_command scenario_world (play_file_msg 5 0) None
               misnumbered_reconciled))) = -1.
Proof.
  split; [reflexivity |]. split; [eexists; split; reflexivity |].
  repeat split.
Qed.

(** Outside the invariant the guard of [set_current_index] shows: the entry
    announced as index 5 at position 0 is loaded into the player, the call
    returns [True], and the cursor stays where it was. *)
Lemma verify_and_load_file_misnumbered :
  verify_and_load_file scenario_world 5 misnumbered_client =
    (Ok true,
     set_player (Player.set_media "media/b.mp4" Player.init) misnumbered_client) /\
  Playlist.current_index (playlist misnumbered_client) = -1.
Proof. split; reflexivity. Qed.

(** ** Drift correction *)

Section Drift.

Variable w : World.

(** [measure_latency] on a client returns the measured round trip and touches
    neither player nor playlist. *)
Lemma measure_latency_client (s : VLCSync) :
  is_host s = false ->
  exists s', measure_latency w s = (Ok (measured_rtt w s), s') /\
             player s' = player s /\ playlist s' = playlist s /\
             is_host s' = is_host s /\ client_socket s' = client_socket s.
Proof.
  intros Hhost. unfold measure_latency, measured_rtt, send_command. munfold.
  rewrite Hhost. destruct (client_socket s) as [c |] eqn:Hs; simpl.
  - destruct (send_fails w c); simpl; [destruct (contains c (clients s)); simpl |];
      eexists; (split; [reflexivity |]); simpl; auto.
  - eexists. split; [reflexivity |]. auto.
Qed.

(** [main.py]: on a playing client, [handle_sync] probes the latency and
    applies [rate_nudge] for the target [host_time + int(latency)]. *)
Lemma main_handle_sync_playing (s : VLCSync) (c : Command) (host_time : Z) :
  is_host s = false ->
  Player.is_playing (player s) = true ->
  c_time c = Some host_time ->
  exists s', Main.handle_sync w c s = (Ok tt, s') /\
             player s' =
               rate_nudge (Main.adjusted_host_time host_time (measured_rtt w s))
                          (player s) /\
             playlist s' = playlist s /\
             is_host s' = is_host s /\ client_socket s' = client_socket s.
Proof.
  intros Hhost Hplay Htime. unfold Main.handle_sync. munfold.
  rewrite Hhost, Hplay, Htime. simpl.
  destruct (measure_latency_client s Hhost) as (s1 & Hrun & Hp & Hpl & Hh & Hc).
  rewrite Hrun. unfold rate_nudge, Player.get_time.
  set (d := Player.time (player s) - _).
  destruct (Z.abs d >? 1000); [| destruct (Z.abs d >? 100); [destruct (d >? 0) |]];
    eexists; (split; [reflexivity |]); simpl; rewrite Hp;
    repeat split; congruence.
Qed.

(** [main.py]: a client that is not playing, and a host, ignore [sync]. *)
Lemma main_handle_sync_idle (s : VLCSync) (c : Command) :
  negb (is_host s) && Player.is_playing (player s) = false ->
  Main.handle_sync w c s = (Ok tt, s).
Proof.
  intros H. unfold Main.handle_sync. munfold. rewrite H. reflexivity.
Qed.

(** [main2.py]: what [handle_sync] does on a client, by cases. *)
Lemma main2_handle_sync_client (s : VLCSync) (c : Command) (host_time sync_time : Z) :
  is_host s = false ->
  c_time c = Some host_time ->
  c_sync_time c = Some sync_time ->
  let t := host_time + (clock_ms w - sync_time) in
  Main2.handle_sync w c s =
    (Ok tt,
     if Player.is_playing (player s) then
       if Z.abs (Player.time (player s) - t) >? 100
       then set_player (Player.set_time t (player s)) s
       else s
     else set_player (Player.set_time t (player s)) s).
Proof.
  intros Hhost Htime Hsync t. unfold Main2.handle_sync. munfold.
  rewrite Hhost, Htime, Hsync. simpl.
  unfold Main2.adjusted_host_time, Player.get_time. fold t.
  destruct (Player.is_playing (player s)); [| reflexivity].
  destruct (Z.abs (Player.time (player s) - t) >? 100); reflexivity.
Qed.

End Drift.

Lemma abs_gtb_false (d n : Z) : Z.abs d <= n -> (Z.abs d >? n) = false.
Proof. intros H. rewrite Z.gtb_ltb. apply Z.ltb_ge. exact H. Qed.

Lemma abs_gtb_true (d n : Z) : Z.abs d > n -> (Z.abs d >? n) = true.
Proof. intros H. rewrite Z.gtb_ltb. apply Z.ltb_lt. lia. Qed.

(** The bands of [main.py]'s correction. *)
Lemma rate_nudge_bands (t : Z) (p : Player.t) :
  let c := Player.time p in
  (Z.abs (c - t) <= 100 -> rate_nudge t p = Player.set_rate 100 p) /\
  (Z.abs (c - t) > 1000 -> rate_nudge t p = Player.set_time t p) /\
  (100 < Z.abs (c - t) <= 1000 -> c > t -> rate_nudge t p = Player.set_rate 95 p) /\
  (100 < Z.abs (c - t) <= 1000 -> c < t -> rate_nudge t p = Player.set_rate 105 p).
Proof.
  intros c. unfold rate_nudge, Player.get_time. fold c. repeat split.
  - intros H. rewrite (abs_gtb_false _ 1000) by lia.
    rewrite (abs_gtb_false _ 100) by lia. reflexivity.
  - intros H. rewrite (abs_gtb_true _ 1000) by lia. reflexivity.
  - intros H Hc. rewrite (abs_gtb_false _ 1000) by lia.
    rewrite (abs_gtb_true _ 100) by lia.
    replace (c - t >? 0) with true by (symmetry; rewrite Z.gtb_ltb; apply Z.ltb_lt; lia).
    reflexivity.
  - intros H Hc. rewrite (abs_gtb_false _ 1000) by lia.
    rewrite (abs_gtb_true _ 100) by lia.
    replace (c - t >? 0) with false by (symmetry; rewrite Z.gtb_ltb; apply Z.ltb_ge; lia).
    reflexivity.
Qed.

(** C3, as the code has it.  For a [sync] message with its [time] field,
    handled by a client that is playing, with target [t] and own position
    [c]:
    - [main.py], whatever else the message carries (target = host position
      + half the measured round trip): if |c - t| <= 100 there is no seek
      and the rate is set to nominal; if |c - t| > 1000 the player seeks to
      [t]; for 100 < |c - t| <= 1000 the rate is set to 0.95 when the client
      is ahead and to 1.05 when it is behind, without a seek;
    - [main2.py], for a message that also carries [sync_time] (target = host
      position + client clock - host clock): if |c - t| <= 100 nothing
      changes; every larger difference is corrected by a seek to [t], and
      the rate is never touched. *)
Theorem sync_correction_bands (w : World) (s : VLCSync) (c : Command)
    (host_time : Z) :
  is_host s = false ->
  Player.is_playing (player s) = true ->
  c_time c = Some host_time ->
  (let t := Main.adjusted_host_time host_time (measured_rtt w s) in
   let pos := Player.time (player s) in
   exists s',
     Main.handle_sync w c s = (Ok tt, s') /\
     playlist s' = playlist s /\
     (Z.abs (pos - t) <= 100 -> player s' = Player.set_rate 100 (player s)) /\
     (Z.abs (pos - t) > 1000 -> player s' = Player.set_time t (player s)) /\
     (100 < Z.abs (pos - t) <= 1000 -> pos > t ->
        player s' = Player.set_rate 95 (player s)) /\
     (100 < Z.abs (pos - t) <= 1000 -> pos < t ->
        player s' = Player.set_rate 105 (player s))) /\
  (forall sync_time, c_sync_time c = Some sync_time ->
   let t := Main2.adjusted_host_time host_time sync_time (clock_ms w) in
   let pos := Player.time (player s) in
   (Z.abs (pos - t) <= 100 -> Main2.handle_sync w c s = (Ok tt, s)) /\
   (Z.abs (pos - t) > 100 ->
      Main2.handle_sync w c s =
        (Ok tt, set_player (Player.set_time t (player s)) s))).
Proof.
  intros Hhost Hplay Htime. split.
  - intros t pos.
    destruct (main_handle_sync_playing w s c host_time Hhost Hplay Htime)
      as (s' & Hrun & Hp & Hpl & _).
    exists s'. split; [exact Hrun |]. split; [exact Hpl |].
    rewrite Hp. apply rate_nudge_bands.
  - intros sync_time Hsync t pos.
    rewrite (main2_handle_sync_client w s c host_time sync_time Hhost Htime Hsync).
    rewrite Hplay. unfold Main2.adjusted_host_time in t. fold t. fold pos.
    split; intros H.
    + rewrite (abs_gtb_false _ 100) by lia. reflexivity.
    + rewrite (abs_gtb_true _ 100) by lia. reflexivity.
Qed.

(** The theorem on a client 500 ms ahead of the target: handed the sync
    message of [main.py]'s host, which carries the position alone, the client
    of [main.py] slows the player down; handed the stamped message of
    [main2.py]'s host, the client of [main2.py] seeks. *)
Lemma sync_correction_bands_midrange :
  (exists s', Main.handle_sync (world_at 0 0) (sync_msg_untimed 1000)
                (client_at true 1500 100) = (Ok tt, s') /\
              player s' = player (client_at true 1500 95)) /\
  Main2.handle_sync (world_at 0 0) (sync_msg 1000 0) (client_at true 1500 100) =
    (Ok tt, client_at true 1000 100).
Proof.
  split.
  - destruct (sync_correction_bands (world_at 0 0) (client_at true 1500 100)
                (sync_msg_untimed 1000) 1000 eq_refl eq_refl eq_refl)
      as [(s' & Hrun & _ & _ & _ & Hslow & _) _].
    exists s'. split; [exact Hrun |]. apply Hslow; vm_compute; intuition discriminate.
  - destruct (sync_correction_bands (world_at 0 0) (client_at true 1500 100)
                (sync_msg 1000 0) 1000 eq_refl eq_refl eq_refl)
      as [_ Hmain2].
    destruct (Hmain2 0 eq_refl) as [_ Hseek]. apply Hseek. vm_compute. reflexivity.
Defined.

(** C3 as stated fails on [main2.py]: a playing client 500 ms ahead of the
    target (between the two thresholds) is sought to the target, at position
    1000, and its rate stays nominal instead of being nudged. *)
Lemma sync_midrange_seeks_in_main2 :
  Player.time (player (client_at true 1500 100)) -
    Main2.adjusted_host_time 1000 0 (clock_ms (world_at 0 0)) = 500 /\
  Main2.handle_sync (world_at 0 0) (sync_msg 1000 0) (client_at true 1500 100) =
    (Ok tt, client_at true 1000 100) /\
  Player.rate (player (client_at true 1000 100)) = 100.
Proof. repeat split. Qed.

(** C4, as the code has it.  On a client of [main2.py], a [sync] message
    with host position [P] stamped [T0], handled when the client's clock
    reads [T1], has the target [P + (T1 - T0)]: a client that is not playing,
    and a playing client more than 100 ms away, end at exactly that position,
    and a playing client within 100 ms of it is left untouched.  On a client
    of [main.py] the stamp plays no part: the target is [P] plus half the
    measured round trip ([P] itself when the round trip is 0); a playing
    client within 100 ms of it is not sought (its rate is set to nominal) and
    one more than 1000 ms away is sought to it. *)
Theorem sync_target_from_clocks (w : World) (s : VLCSync) (c : Command) (P T0 : Z) :
  is_host s = false ->
  c_time c = Some P ->
  c_sync_time c = Some T0 ->
  let T1 := clock_ms w in
  let pos := Player.time (player s) in
  (Player.is_playing (player s) = false ->
     Main2.handle_sync w c s =
       (Ok tt, set_player (Player.set_time (P + (T1 - T0)) (player s)) s)) /\
  (Player.is_playing (player s) = true -> Z.abs (pos - (P + (T1 - T0))) > 100 ->
     Main2.handle_sync w c s =
       (Ok tt, set_player (Player.set_time (P + (T1 - T0)) (player s)) s)) /\
  (Player.is_playing (player s) = true -> Z.abs (pos - (P + (T1 - T0))) <= 100 ->
     Main2.handle_sync w c s = (Ok tt, s)) /\
  (Player.is_playing (player s) = true ->
     exists s',
       Main.handle_sync w c s = (Ok tt, s') /\
       (Z.abs (pos - (P + Z.quot (measured_rtt w s) 2)) <= 100 ->
          player s' = Player.set_rate 100 (player s)) /\
       (Z.abs (pos - (P + Z.quot (measured_rtt w s) 2)) > 1000 ->
          player s' = Player.set_time (P + Z.quot (measured_rtt w s) 2) (player s))).
Proof.
  intros Hhost Htime Hsync T1 pos.
  pose proof (main2_handle_sync_client w s c P T0 Hhost Htime Hsync) as H2.
  simpl in H2. fold T1 in H2. fold pos in H2.
  repeat split.
  - intros Hplay. rewrite H2, Hplay. reflexivity.
  - intros Hplay Hfar. rewrite H2, Hplay.
    rewrite (abs_gtb_true _ 100) by lia. reflexivity.
  - intros Hplay Hnear. rewrite H2, Hplay.
    rewrite (abs_gtb_false _ 100) by lia. reflexivity.
  - intros Hplay.
    destruct (main_handle_sync_playing w s c P Hhost Hplay Htime)
      as (s' & Hrun & Hp & _).
    exists s'. split; [exact Hrun |]. rewrite Hp.
    unfold Main.adjusted_host_time.
    destruct (rate_nudge_bands (P + Z.quot (measured_rtt w s) 2) (player s))
      as (Hnear & Hfar & _).
    split; assumption.
Qed.

(** The theorem with [P] = 1000 stamped 0 and a client clock reading 5000:
    the client of [main2.py] that is not playing ends at 6000. *)
Lemma sync_target_from_clocks_example :
  Main2.handle_sync (world_at 5000 0) (sync_msg 1000 0) (client_at false 0 100) =
    (Ok tt, client_at false 6000 100).
Proof.
  destruct (sync_target_from_clocks (world_at 5000 0) (client_at false 0 100)
              (sync_msg 1000 0) 1000 0 eq_refl eq_refl eq_refl)
    as (Hidle & _).
  exact (Hidle eq_refl).
Defined.

(** C4 as stated fails twice.  With [P] = 1000 stamped [T0] = 0, a client
    clock reading [T1] = 5000 and no latency, the stated target is 6000.
    The playing client of [main.py] that is exactly there is sought to 1000:
    its target is [P].  The client of [main2.py] that is not playing and
    50 ms short of the target is moved onto it. *)
Lemma sync_target_counterexamples :
  player (snd (Main.handle_sync (world_at 5000 0) (sync_msg 1000 0)
                 (client_at true 6000 100))) =
    player (client_at true 1000 100) /\
  Main2.handle_sync (world_at 5000 0) (sync_msg 1000 0) (client_at false 5950 100) =
    (Ok tt, client_at false 6000 100).
Proof. split; reflexivity. Qed.

(** C6, as the code has it.  A client that is not playing and receives a
    [sync] message: in [main.py] the message is ignored whatever it carries,
    stamped or not, and nothing changes at all; in [main2.py], for a message
    carrying [time] and [sync_time], its position is set to the target
    [host_time + (clock - sync_time)] and nothing else changes, so it is
    still not playing. *)
Theorem sync_while_not_playing (w : World) (s : VLCSync) (c : Command) :
  is_host s = false ->
  Player.is_playing (player s) = false ->
  Main.handle_sync w c s = (Ok tt, s) /\
  (forall host_time sync_time,
     c_time c = Some host_time ->
     c_sync_time c = Some sync_time ->
     let t := Main2.adjusted_host_time host_time sync_time (clock_ms w) in
     Main2.handle_sync w c s =
       (Ok tt, set_player (Player.set_time t (player s)) s) /\
     Player.is_playing (player (snd (Main2.handle_sync w c s))) = false /\
     Player.time (player (snd (Main2.handle_sync w c s))) = t).
Proof.
  intros Hhost Hplay. split.
  - apply main_handle_sync_idle. rewrite Hplay. apply andb_false_r.
  - intros host_time sync_time Htime Hsync t.
    rewrite (main2_handle_sync_client w s c host_time sync_time Hhost Htime Hsync).
    rewrite Hplay. simpl. repeat split. exact Hplay.
Qed.

(** The theorem on a client at position 0 that is not playing: the client of
    [main.py] ignores the sync message of its own host (position alone) and
    a stamped one alike; the client of [main2.py] is set to the target. *)
Lemma sync_while_not_playing_example :
  Main.handle_sync (world_at 5000 0) (sync_msg_untimed 1000) (client_at false 0 100) =
    (Ok tt, client_at false 0 100) /\
  Main.handle_sync (world_at 5000 0) (sync_msg 1000 0) (client_at false 0 100) =
    (Ok tt, client_at false 0 100) /\
  Main2.handle_sync (world_at 5000 0) (sync_msg 1000 0) (client_at false 0 100) =
    (Ok tt, client_at false 6000 100).
Proof.
  destruct (sync_while_not_playing (world_at 5000 0) (client_at false 0 100)
              (sync_msg_untimed 1000) eq_refl eq_refl)
    as (Huntimed & _).
  destruct (sync_while_not_playing (world_at 5000 0) (client_at false 0 100)
              (sync_msg 1000 0) eq_refl eq_refl)
    as (Hstamped & Hmain2).
  destruct (Hmain2 1000 0 eq_refl eq_refl) as (Hset & _).
  split; [exact Huntimed |]. split; [exact Hstamped | exact Hset].
Defined.

(** C6 as stated fails on [main.py]: the client that is not playing, at
    position 0, is sent the host position 1000 and stays at 0. *)
Lemma sync_ignored_when_idle_in_main :
  Main.handle_sync (world_at 5000 0) (sync_msg_untimed 1000) (client_at false 0 100) =
    (Ok tt, client_at false 0 100) /\
  Player.time (player (client_at false 0 100)) = 0.
Proof. split; reflexivity. Qed.

(** *** Handling the same [sync] twice *)

Lemma rate_nudge_playing (t : Z) (p : Player.t) :
  Player.is_playing (rate_nudge t p) = Player.is_playing p.
Proof.
  unfold rate_nudge.
  destruct (Z.abs (Player.get_time p - t) >? 1000);
    [| destruct (Z.abs (Player.get_time p - t) >? 100);
       [destruct (Player.get_time p - t >? 0) |]];
    reflexivity.
Qed.

(** Decide every integer comparison of the goal and settle the cases. *)
Ltac by_comparisons :=
  repeat match goal with
         | |- context [?a >? ?b] => destruct (Z.gtb_spec a b); simpl in *
         end;
  try reflexivity; try lia; try (f_equal; lia).

(** The position after a second [rate_nudge] for the same target is the
    position after the first. *)
Lemma rate_nudge_twice_time (t : Z) (p : Player.t) :
  Player.time (rate_nudge t (rate_nudge t p)) = Player.time (rate_nudge t p).
Proof.
  destruct p as [m pl tm r].
  unfold rate_nudge, Player.get_time, Player.set_time, Player.set_rate. simpl.
  by_comparisons.
Qed.

(** The whole player is the same after the second [rate_nudge] unless the
    first one was a seek made at a rate that was not nominal. *)
Lemma rate_nudge_twice (t : Z) (p : Player.t) :
  Player.rate p = 100 \/ Z.abs (Player.time p - t) <= 1000 ->
  rate_nudge t (rate_nudge t p) = rate_nudge t p.
Proof.
  destruct p as [m pl tm r]. simpl. intros H.
  unfold rate_nudge, Player.get_time, Player.set_time, Player.set_rate. simpl.
  by_comparisons.
Qed.

(** [main.py]: what two successive deliveries leave in the player. *)
Lemma main_handle_sync_twice (w : World) (s : VLCSync) (c : Command) :
  (player (snd (twice (Main.handle_sync w c) s)) = player (snd (Main.handle_sync w c s))) \/
  (exists P,
     c_time c = Some P /\
     let t := Main.adjusted_host_time P (measured_rtt w s) in
     player (snd (Main.handle_sync w c s)) = rate_nudge t (player s) /\
     player (snd (twice (Main.handle_sync w c) s)) =
       rate_nudge t (rate_nudge t (player s))).
Proof.
  unfold twice.
  destruct (negb (is_host s) && Player.is_playing (player s)) eqn:E.
  - apply andb_true_iff in E. destruct E as [Hhost Hplay].
    apply negb_true_iff in Hhost.
    destruct (c_time c) as [P |] eqn:Htime.
    + right. exists P. split; [reflexivity |]. cbv zeta.
      destruct (main_handle_sync_playing w s c P Hhost Hplay Htime)
        as (s1 & Hrun & Hp & _ & Hh & Hc).
      rewrite Hrun. simpl. split; [exact Hp |].
      assert (Hplay1 : Player.is_playing (player s1) = true).
      { rewrite Hp. rewrite rate_nudge_playing. exact Hplay. }
      rewrite Hhost in Hh.
      destruct (main_handle_sync_playing w s1 c P Hh Hplay1 Htime)
        as (s2 & Hrun2 & Hp2 & _).
      rewrite Hrun2. simpl. rewrite Hp2, Hp.
      unfold measured_rtt. rewrite Hc. reflexivity.
    + left. unfold Main.handle_sync. munfold.
      rewrite ?Hhost, ?Hplay, ?Htime. simpl.
      rewrite ?Hhost, ?Hplay, ?Htime. reflexivity.
  - left. rewrite (main_handle_sync_idle w s c E). simpl.
    rewrite (main_handle_sync_idle w s c E). reflexivity.
Qed.

(** C9, as the code has it.  Handling the same [sync] message twice in a
    row, with the same clock reading and the same measured latency:
    - in [main2.py] the second handling changes nothing: the state after two
      deliveries is the state after one;
    - in [main.py] the position after two deliveries is the position after
      one, and so is the whole player provided its rate was nominal before,
      or the first delivery found it within 1000 ms of the target. *)
Theorem sync_twice_once (w : World) (s : VLCSync) (c : Command) :
  snd (twice (Main2.handle_sync w c) s) = snd (Main2.handle_sync w c s) /\
  Player.time (player (snd (twice (Main.handle_sync w c) s))) =
    Player.time (player (snd (Main.handle_sync w c s))) /\
  (Player.rate (player s) = 100 ->
     player (snd (twice (Main.handle_sync w c) s)) =
       player (snd (Main.handle_sync w c s))) /\
  (forall P, c_time c = Some P ->
     Z.abs (Player.time (player s) -
            Main.adjusted_host_time P (measured_rtt w s)) <= 1000 ->
     player (snd (twice (Main.handle_sync w c) s)) =
       player (snd (Main.handle_sync w c s))).
Proof.
  split; [| split; [| split]].
  - unfold twice, Main2.handle_sync, Main2.adjusted_host_time, Player.get_time.
    munfold.
    destruct s as [host folder pl peers sock missing shuffle [m playing tm r] out lg].
    simpl.
    destruct host; simpl; [reflexivity |].
    destruct (c_time c) as [P |]; simpl; [| reflexivity].
    destruct (c_sync_time c) as [T0 |]; simpl; [| reflexivity].
    destruct playing; simpl; [| reflexivity].
    destruct (Z.gtb_spec (Z.abs (tm - (P + (clock_ms w - T0)))) 100) as [Hfar | Hnear];
      simpl.
    + replace (P + (clock_ms w - T0) - (P + (clock_ms w - T0))) with 0 by lia.
      reflexivity.
    + rewrite (abs_gtb_false _ 100 Hnear). reflexivity.
  - destruct (main_handle_sync_twice w s c) as [-> | (P & _ & H1 & H2)];
      [reflexivity |].
    rewrite H1, H2. apply rate_nudge_twice_time.
  - intros Hrate.
    destruct (main_handle_sync_twice w s c) as [-> | (P & _ & H1 & H2)];
      [reflexivity |].
    rewrite H1, H2. apply rate_nudge_twice. left. exact Hrate.
  - intros P HP Hnear.
    destruct (main_handle_sync_twice w s c) as [-> | (P' & HP' & H1 & H2)];
      [reflexivity |].
    rewrite H1, H2. apply rate_nudge_twice. right.
    rewrite HP in HP'. injection HP' as <-. exact Hnear.
Qed.

(** C9 as stated fails on [main.py]: a playing client running at rate 0.95,
    5000 ms ahead of the target 0, is sought to 0 by the first delivery and
    keeps rate 0.95; the second delivery finds it on target and sets the rate
    back to 1.0. *)
Lemma sync_twice_differs_in_main :
  player (snd (Main.handle_sync (world_at 0 0) (sync_msg_untimed 0)
                 (client_at true 5000 95))) =
    player (client_at true 0 95) /\
  player (snd (twice (Main.handle_sync (world_at 0 0) (sync_msg_untimed 0))
                 (client_at true 5000 95))) =
    player (client_at true 0 100).
Proof. split; reflexivity. Qed.

(** ** Broadcast and [request_sync] *)

(** One [send_command] hands the message to the socket and touches neither
    player nor playlist. *)
Lemma send_command_sent (w : World) (cmd : Command) (peer : socket) (s : VLCSync) :
  exists s',
    send_command w cmd (Some peer) s = (Ok tt, s') /\
    sent s' = (sent s ++ [(peer, cmd)])%list /\
    player s' = player s /\ playlist s' = playlist s /\
    is_host s' = is_host s /\ shuffle_mode s' = shuffle_mode s.
Proof.
  unfold send_command. munfold. simpl.
  destruct (send_fails w peer); simpl;
    [destruct (contains peer (clients s)); simpl |];
    eexists; (split; [reflexivity |]); simpl; repeat split; reflexivity.
Qed.

(** The loop of [broadcast_command] hands the message once to every socket of
    the snapshot, in order, whatever happens to the sends. *)
Lemma for_each_send_command (w : World) (cmd : Command) (peers : list socket) :
  forall s,
  exists s',
    for_each (fun c => send_command w cmd (Some c)) peers s = (Ok tt, s') /\
    sent s' = (sent s ++ map (fun c => (c, cmd)) peers)%list /\
    player s' = player s /\ playlist s' = playlist s /\
    is_host s' = is_host s /\ shuffle_mode s' = shuffle_mode s.
Proof.
  induction peers as [| peer rest IH]; intros s; cbn [for_each map].
  - exists s. munfold. rewrite app_nil_r. repeat split; reflexivity.
  - munfold.
    destruct (send_command_sent w cmd peer s) as (s1 & Hrun & Hsent & Hp & Hpl & Hh & Hsh).
    rewrite Hrun.
    destruct (IH s1) as (s2 & Hrun2 & Hsent2 & Hp2 & Hpl2 & Hh2 & Hsh2).
    exists s2. split; [exact Hrun2 |].
    rewrite Hsent2, Hsent, <- app_assoc. simpl.
    repeat split; congruence.
Qed.

Lemma broadcast_command_sent (w : World) (cmd : Command) (s : VLCSync) :
  exists s',
    broadcast_command w cmd s = (Ok tt, s') /\
    sent s' = (sent s ++ map (fun c => (c, cmd)) (clients s))%list /\
    player s' = player s /\ playlist s' = playlist s /\
    is_host s' = is_host s /\ shuffle_mode s' = shuffle_mode s.
Proof.
  unfold broadcast_command. munfold. apply for_each_send_command.
Qed.

(** C8, as the code has it.  A host of [main2.py] that receives
    [request_sync] while its player is playing hands one [sync] message,
    carrying the player's position and the host's clock reading, to every
    connected peer, once each, and changes neither player nor playlist; while
    its player is not playing it emits nothing.  [main.py] has no
    [request_sync] branch: the message changes nothing and nothing is sent. *)
Theorem request_sync_emits_sync (w : World) (s : VLCSync) (c : Command)
    (from : option socket) :
  is_host s = true ->
  c_type c = Some "request_sync" ->
  (Player.is_playing (player s) = true ->
   exists s',
     Main2.handle_command w c from s = (Ok tt, s') /\
     sent s' =
       (sent s ++
        map (fun peer => (peer, sync_msg (Player.time (player s)) (clock_ms w)))
            (clients s))%list /\
     player s' = player s /\ playlist s' = playlist s) /\
  (Player.is_playing (player s) = false ->
   Main2.handle_command w c from s = (Ok tt, s)) /\
  Main.handle_command w c from s = (Ok tt, s).
Proof.
  intros Hhost Htype. repeat split.
  - intros Hplay. unfold Main2.handle_command, Main2.send_sync_command. munfold.
    rewrite Htype. simpl. rewrite Hhost. simpl. rewrite Hhost, Hplay. simpl.
    destruct (broadcast_command_sent w
                (with_sync_time (clock_ms w)
                   (with_time (Player.get_time (player s)) (msg "sync"))) s)
      as (s' & Hrun & Hsent & Hp & Hpl & _).
    exists s'. split; [exact Hrun |]. auto.
  - intros Hplay. unfold Main2.handle_command, Main2.send_sync_command. munfold.
    rewrite Htype. simpl. rewrite Hhost. simpl. rewrite Hhost, Hplay. reflexivity.
  - unfold Main.handle_command. munfold. rewrite Htype. reflexivity.
Qed.

(** The theorem on a playing host at position 1000 with peers 1 and 2, when
    the clock reads 7000. *)
Lemma request_sync_emits_sync_example :
  exists s',
    Main2.handle_command (world_at 7000 0) (msg "request_sync") (Some 1%nat)
      (host_at true 1000 [1%nat; 2%nat]) = (Ok tt, s') /\
    sent s' = [(1%nat, sync_msg 1000 7000); (2%nat, sync_msg 1000 7000)].
Proof.
  destruct (request_sync_emits_sync (world_at 7000 0) (host_at true 1000 [1%nat; 2%nat])
              (msg "request_sync") (Some 1%nat) eq_refl eq_refl)
    as (Hplaying & _).
  destruct (Hplaying eq_refl) as (s' & Hrun & Hsent & _).
  exists s'. split; [exact Hrun | exact Hsent].
Defined.

(** C8 as stated fails: the host of [main2.py] whose player is not playing
    answers [request_sync] with nothing, and the host of [main.py] answers it
    with nothing even while playing. *)
Lemma request_sync_unanswered :
  Main2.handle_command (world_at 7000 0) (msg "request_sync") (Some 1%nat)
    (host_at false 1000 [1%nat; 2%nat]) = (Ok tt, host_at false 1000 [1%nat; 2%nat]) /\
  Main.handle_command (world_at 7000 0) (msg "request_sync") (Some 1%nat)
    (host_at true 1000 [1%nat; 2%nat]) = (Ok tt, host_at true 1000 [1%nat; 2%nat]) /\
  sent (host_at false 1000 [1%nat; 2%nat]) = [] /\
  sent (host_at true 1000 [1%nat; 2%nat]) = [].
Proof. repeat split. Qed.

(** ** The dispatcher and the receive loops *)

(** Turn a hypothesis [unrecognized tags ty = true] into one disequality per
    tag and rewrite the dispatcher's tests with them. *)
Ltac no_branch H :=
  unfold unrecognized in H; simpl in H;
  repeat (apply andb_true_iff in H; destruct H as [?H H]);
  repeat match goal with
         | E : negb (String.eqb _ _) = true |- _ =>
             apply negb_true_iff in E; rewrite ?E; clear E
         end.

(** A message whose tag has no branch is ignored without a trace: nothing is
    printed, nothing is sent, nothing changes. *)
Lemma unrecognized_tag_ignored (w : World) (s : VLCSync) (c : Command)
    (from : option socket) (ty : string) :
  c_type c = Some ty ->
  (unrecognized main2_tags ty = true -> Main2.handle_command w c from s = (Ok tt, s)) /\
  (unrecognized main_tags ty = true -> Main.handle_command w c from s = (Ok tt, s)).
Proof.
  intros Htype. split; intros H.
  - unfold Main2.handle_command. munfold. rewrite Htype. simpl.
    no_branch H. reflexivity.
  - unfold Main.handle_command. munfold. rewrite Htype. simpl.
    no_branch H. reflexivity.
Qed.

(** X18. After a message with an unknown tag both loops go on with the next
    event, the connection untouched. *)
Lemma unrecognized_tag_keeps_receiving (w : World) (s : VLCSync) (c : Command)
    (peer : socket) (ty : string) (rest : list (World * recv_event)) :
  c_type c = Some ty ->
  unrecognized main2_tags ty = true ->
  handle_client_loop Main2.handle_command peer ((w, RecvData c) :: rest) s =
    handle_client_loop Main2.handle_command peer rest s /\
  receive_commands_loop Main2.handle_command ((w, RecvData c) :: rest) s =
    receive_commands_loop Main2.handle_command rest s.
Proof.
  intros Htype H.
  destruct (unrecognized_tag_ignored w s c (Some peer) ty Htype) as [H2 _].
  destruct (unrecognized_tag_ignored w s c None ty Htype) as [H2' _].
  simpl. rewrite (H2 H), (H2' H). split; reflexivity.
Qed.

Lemma unrecognized_tag_example :
  Main2.handle_command quiet_world (msg "hello") None (client_at true 0 100) =
    (Ok tt, client_at true 0 100).
Proof.
  apply (unrecognized_tag_ignored quiet_world (client_at true 0 100) (msg "hello")
           None "hello" eq_refl).
  reflexivity.
Defined.

(** A payload of text that is not JSON is logged by the host's loop, which
    goes on; the client's loop is left on it. *)
Lemma garbage_payload (w : World) (s : VLCSync) (peer : socket)
    (rest : list (World * recv_event)) :
  handle_client_loop Main2.handle_command peer ((w, RecvGarbage) :: rest) s =
    handle_client_loop Main2.handle_command peer rest
      (set_log (log s ++ [LogDecodeFailed]) s) /\
  receive_commands_loop Main2.handle_command ((w, RecvGarbage) :: rest) s =
    (Ok LoopExited, set_log (log s ++ [LogReceiveError ValueError]) s).
Proof. split; reflexivity. Qed.

(** C5, where the code departs from it.  A [seek] message without its
    [time] field raises [KeyError] in the dispatcher of either variant.  On
    the host the exception ends [handle_client]: the loop is left whatever
    events follow, the peer is dropped from [clients] and "Client
    disconnected" is printed.  On the client it ends [receive_commands]: the
    error is printed, the loop is left, and no later message is handled. *)
Theorem missing_field_ends_receive_loop (w : World) (s : VLCSync) (peer : socket)
    (rest : list (World * recv_event)) :
  Main2.handle_command w (msg "seek") (Some peer) s = (Raise (KeyError "time"), s) /\
  Main.handle_command w (msg "seek") (Some peer) s = (Raise (KeyError "time"), s) /\
  Main2.handle_client peer ((w, RecvData (msg "seek")) :: rest) s =
    (Ok LoopExited,
     set_log (log s ++ [LogClientDisconnected])
       (if contains peer (clients s)
        then set_clients (remove_first peer (clients s)) s else s)) /\
  Main.handle_client peer ((w, RecvData (msg "seek")) :: rest) s =
    Main2.handle_client peer ((w, RecvData (msg "seek")) :: rest) s /\
  Main2.receive_commands ((w, RecvData (msg "seek")) :: rest) s =
    (Ok LoopExited,
     set_log (log s ++ [LogReceiveError (KeyError "time");
                        LogDisconnectedFromHost]) s) /\
  Main.receive_commands ((w, RecvData (msg "seek")) :: rest) s =
    Main2.receive_commands ((w, RecvData (msg "seek")) :: rest) s.
Proof.
  repeat split.
  - unfold Main2.handle_client, handle_client_with. munfold. simpl.
    destruct (contains peer (clients s)); reflexivity.
  - unfold Main2.receive_commands, receive_commands_with. munfold. simpl.
    rewrite <- app_assoc. reflexivity.
Qed.

(** The same on a host with one peer that sends the bad [seek] and then a
    [pause]: the peer is gone and the [pause] was never applied. *)
Lemma missing_field_drops_peer :
  Main2.handle_client 7%nat
    [(quiet_world, RecvData (msg "seek")); (quiet_world, RecvData (msg "pause"))]
    (host_at true 1000 [7%nat]) =
  (Ok LoopExited,
   set_log [LogClientDisconnected] (host_at true 1000 [])).
Proof. reflexivity. Qed.

(** ** Advancing on an empty playlist *)

(** X16. On a playlist with N >= 1 entries and the cursor at [k], [next_file]
    returns the entry at position [(k + 1) mod N] and [previous_file] the one
    at [(k - 1 + N) mod N], and the cursor moves there; on an empty playlist
    [get_current_file], [set_current_index], [next_file] and [previous_file]
    return nothing and leave the playlist as it is. *)
Lemma playlist_wraps (m : MediaFile.t) (l : list MediaFile.t) (k i : Z) :
  let p := Playlist.Build (m :: l) k in
  let N := Playlist.len p in
  let e := Playlist.Build [] k in
  (Playlist.next_file p =
     (Playlist.at_position p ((k + 1) mod N),
      Playlist.Build (m :: l) ((k + 1) mod N)) /\
   is_Some (Playlist.at_position p ((k + 1) mod N))) /\
  (Playlist.previous_file p =
     (Playlist.at_position p ((k - 1 + N) mod N),
      Playlist.Build (m :: l) ((k - 1 + N) mod N)) /\
   is_Some (Playlist.at_position p ((k - 1 + N) mod N))) /\
  Playlist.next_file e = (None, e) /\
  Playlist.previous_file e = (None, e) /\
  Playlist.get_current_file e = None /\
  Playlist.set_current_index i e = (false, e).
Proof.
  intros p N e.
  assert (HN : 0 < N) by apply (len_cons m l k).
  assert (Hat : forall j, 0 <= j < N ->
            Playlist.get_current_file (Playlist.Build (m :: l) j) =
              Playlist.at_position p j /\ is_Some (Playlist.at_position p j)).
  { intros j Hj. unfold Playlist.get_current_file, Playlist.at_position.
    change (Playlist.len (Playlist.Build (m :: l) j)) with N.
    change (Playlist.current_index (Playlist.Build (m :: l) j)) with j.
    change (Playlist.media_files (Playlist.Build (m :: l) j)) with (m :: l).
    change (Playlist.media_files p) with (m :: l).
    replace (0 <=? j) with true by (symmetry; apply Z.leb_le; lia).
    replace (j <? N) with true by (symmetry; apply Z.ltb_lt; lia).
    split; [reflexivity |].
    apply lookup_lt_is_Some. unfold N, Playlist.len in Hj. simpl in Hj.
    simpl length. lia. }
  assert (Hprev : (k - 1 + N) mod N = (k - 1) mod N).
  { rewrite <- (Z.mul_1_l N) at 1. apply Z.mod_add. lia. }
  assert (Hset : Playlist.set_current_index i e = (false, e)).
  { destruct (set_current_index_spec i e) as [[Hi _] | [_ ->]]; [| reflexivity].
    unfold Playlist.len in Hi. simpl in Hi. lia. }
  assert (Hcur : Playlist.get_current_file e = None).
  { unfold Playlist.get_current_file, Playlist.len. simpl.
    destruct ((0 <=? k) && (k <? Z.of_nat 0)) eqn:E; [| reflexivity].
    apply andb_true_iff in E. destruct E as [E1 E2].
    apply Z.leb_le in E1. apply Z.ltb_lt in E2. simpl in E2. lia. }
  repeat split; try exact Hset; try exact Hcur.
  - unfold Playlist.next_file. simpl. fold p. fold N.
    f_equal. apply Hat. apply Z.mod_pos_bound. exact HN.
  - apply Hat. apply Z.mod_pos_bound. exact HN.
  - rewrite Hprev. unfold Playlist.previous_file. simpl. fold p. fold N.
    f_equal. apply Hat. apply Z.mod_pos_bound. exact HN.
  - rewrite Hprev. apply Hat. apply Z.mod_pos_bound. exact HN.
Qed.

(** C7, where the code departs from it.  On a coordinator of [main2.py]
    whose playlist is empty, [play_next] raises: [ZeroDivisionError] from the
    modulo by the length 0, or [ValueError] from [randint(0, -1)] under
    shuffle; the state is as before.  The coordinator's [next_file], which
    goes through [Playlist.next_file], returns normally and changes
    nothing. *)
Theorem play_next_empty_playlist_raises (w : World) (s : VLCSync) (k : Z) :
  let e := set_playlist (Playlist.Build [] k) s in
  Main2.play_next w (set_shuffle_mode false e) =
    (Raise ZeroDivisionError, set_shuffle_mode false e) /\
  Main2.play_next w (set_shuffle_mode true e) =
    (Raise ValueError, set_shuffle_mode true e) /\
  Main2.next_file w e = (Ok tt, e) /\
  Main.next_file w e = (Ok tt, e).
Proof. repeat split. Qed.

(** ** Where the index invariant comes from *)

Lemma indexed_from_cons (start : Z) (m : MediaFile.t) (l : list MediaFile.t) :
  MediaFile.index m = start -> indexed_from (start + 1) l ->
  indexed_from start (m :: l).
Proof.
  intros Hm Hl [| i] mf H; simpl in H.
  - injection H as <-. lia.
  - rewrite (Hl i mf H). lia.
Qed.

(** The [enumerate] loop appends one entry per path, numbered from the
    position it starts at. *)
Lemma load_from_indexed (w : World) (paths : list string) :
  forall (start : Z) (s : VLCSync),
  (forall p, In p paths -> is_Some (file_info w p)) ->
  exists s' added,
    load_from w start paths s = (Ok tt, s') /\
    playlist s' =
      Playlist.Build (Playlist.media_files (playlist s) ++ added)
                     (Playlist.current_index (playlist s)) /\
    map MediaFile.path added = paths /\
    indexed_from start added /\
    is_host s' = is_host s /\ clients s' = clients s.
Proof.
  induction paths as [| path rest IH]; intros start s Hread.
  - exists s, []. simpl. munfold. rewrite app_nil_r.
    destruct s as [? ? [? ?] ? ? ? ? ? ? ?]. simpl.
    repeat split; try reflexivity. intros i mf H. destruct i; discriminate.
  - destruct (Hread path (or_introl eq_refl)) as [[[n sz] h] Hinfo].
    cbn [load_from]. munfold. unfold get_file_info. rewrite Hinfo.
    match goal with
    | |- context [load_from w _ rest ?s1] =>
        destruct (IH (start + 1) s1) as (s' & added & Hrun & Hpl & Hpaths & Hidx & Hh & Hc)
    end.
    { intros p Hp. apply Hread. right. exact Hp. }
    exists s', (MediaFile.Build path n sz h start :: added).
    split; [exact Hrun |]. simpl in *. rewrite Hpl, <- app_assoc. simpl.
    repeat split; try assumption.
    + f_equal. exact Hpaths.
    + apply indexed_from_cons; [reflexivity | exact Hidx].
Qed.

(** X17. The playlist a host loads, and the playlist a client rebuilds from a
    host's announcement, carry index [i] at position [i]; their index fields
    are therefore valid positions, which is what the load gate relies on. *)
Lemma built_playlists_indexed (w : World) (folder : string) (s : VLCSync)
    (announced : list MediaFile.t) (c : VLCSync) :
  playlist s = Playlist.init ->
  (forall p, In p (find_media_files w folder) -> is_Some (file_info w p)) ->
  indexed_from 0 announced ->
  (forall p, In p (local_files w c) -> is_Some (file_info w p)) ->
  (forall p, In p (local_files w c) -> truthy p = true) ->
  (exists s', load_playlist w folder s = (Ok tt, s') /\
              indexed_from 0 (Playlist.media_files (playlist s')) /\
              indices_in_range (playlist s')) /\
  (exists c', handle_playlist_info w (map announce announced) c = (Ok tt, c') /\
              indexed_from 0 (Playlist.media_files (playlist c')) /\
              indices_in_range (playlist c')).
Proof.
  intros Hinit Hread Hann Hcread Hcne. split.
  - unfold load_playlist. munfold.
    destruct (load_from_indexed w (find_media_files w folder) 0 s Hread)
      as (s1 & added & Hrun & Hpl & _ & Hidx & Hh & _).
    rewrite Hrun. rewrite Hinit in Hpl. simpl in Hpl.
    assert (Hgoal : indexed_from 0 (Playlist.media_files (playlist s1)) /\
                    indices_in_range (playlist s1)).
    { rewrite Hpl. simpl. split; [exact Hidx | apply indexed_in_range; exact Hidx]. }
    destruct (is_host s1).
    + unfold broadcast_playlist. munfold.
      destruct (broadcast_command_sent w
                  (with_playlist (map announce (Playlist.media_files (playlist s1)))
                     (msg "playlist_info")) s1)
        as (s2 & Hrun2 & _ & _ & Hpl2 & _).
      exists s2. split; [exact Hrun2 |]. rewrite Hpl2. exact Hgoal.
    + exists s1. split; [reflexivity | exact Hgoal].
  - destruct (handle_playlist_info_state w announced c Hcread Hcne)
      as (c' & Hrun & Hpl & _).
    exists c'. split; [exact Hrun |]. rewrite Hpl. simpl.
    assert (Hidx : indexed_from 0 (map (resolve w (local_files w c)) announced)).
    { intros i mf Hi.
      apply list_elem_of_lookup_2 in Hi as Hin.
      destruct (announced !! i) as [a |] eqn:Ha.
      - rewrite (lookup_map _ _ _ _ Ha) in Hi. injection Hi as <-.
        simpl. apply (Hann i a Ha).
      - apply lookup_ge_None in Ha.
        apply lookup_lt_Some in Hi. rewrite length_map in Hi. lia. }
    split; [exact Hidx | apply indexed_in_range; exact Hidx].
Qed.

Lemma built_playlists_indexed_scenario :
  exists c', handle_playlist_info scenario_world (map announce scenario_announced)
               scenario_client = (Ok tt, c') /\
             indices_in_range (playlist c').
Proof.
  assert (Hread : forall p, In p (local_files scenario_world scenario_client) ->
                            is_Some (file_info scenario_world p)).
  { intros p [<- | []]. eexists. reflexivity. }
  assert (Hne : forall p, In p (local_files scenario_world scenario_client) ->
                          truthy p = true).
  { intros p [<- | []]. reflexivity. }
  assert (Hann : indexed_from 0 scenario_announced).
  { intros [| [| i]] mf H; simpl in H; try discriminate; injection H as <-;
      reflexivity. }
  destruct (built_playlists_indexed scenario_world "media" scenario_client
              scenario_announced scenario_client eq_refl Hread Hann Hread Hne)
    as (_ & c' & Hrun & _ & Hrange).
  exists c'. split; assumption.
Defined.

(* ===================================================================== *)
(** * Further properties of the code *)
(* ===================================================================== *)

(** ** Playlist: stepping back and forth *)

Lemma mod_succ_pred (k N : Z) : 0 <= k < N -> ((k + 1) mod N - 1) mod N = k.
Proof.
  intros Hk.
  destruct (Z.eq_dec (k + 1) N) as [E | E].
  - rewrite E, Z.mod_same by lia.
    symmetry. apply (Z.mod_unique_pos _ _ (-1)); lia.
  - rewrite (Z.mod_small (k + 1)) by lia.
    symmetry. apply (Z.mod_unique_pos _ _ 0); lia.
Qed.

Lemma mod_pred_succ (k N : Z) : 0 <= k < N -> ((k - 1) mod N + 1) mod N = k.
Proof.
  intros Hk.
  destruct (Z.eq_dec k 0) as [E | E].
  - subst k.
    rewrite <- (Z.mod_unique_pos (0 - 1) N (-1) (N - 1)) by lia.
    symmetry. apply (Z.mod_unique_pos _ _ 1); lia.
  - rewrite (Z.mod_small (k - 1)) by lia.
    symmetry. apply (Z.mod_unique_pos _ _ 0); lia.
Qed.

(** X1. On a playlist whose cursor is a valid position, [previous_file]
    undoes [next_file] and [next_file] undoes [previous_file]: the playlist
    is back as it was, and either way the entry returned by the second call
    is the one that was current before the first.  From the fresh cursor -1
    this fails: [next_file] then [previous_file] ends on the last entry. *)
Theorem next_previous_round_trip (m : MediaFile.t) (l : list MediaFile.t) (k : Z) :
  let p := Playlist.Build (m :: l) k in
  let fresh := Playlist.Build (m :: l) (-1) in
  (0 <= k < Playlist.len p ->
   Playlist.previous_file (snd (Playlist.next_file p)) =
     (Playlist.get_current_file p, p) /\
   Playlist.next_file (snd (Playlist.previous_file p)) =
     (Playlist.get_current_file p, p)) /\
  Playlist.current_index (snd (Playlist.previous_file (snd (Playlist.next_file fresh)))) =
    Playlist.len fresh - 1.
Proof.
  intros p fresh. split.
  - intros Hk.
    unfold Playlist.next_file, Playlist.previous_file. simpl.
    change (Playlist.len (Playlist.Build (m :: l) ((k + 1) mod Playlist.len p)))
      with (Playlist.len p).
    change (Playlist.len (Playlist.Build (m :: l) ((k - 1) mod Playlist.len p)))
      with (Playlist.len p).
    rewrite (mod_succ_pred k _ Hk), (mod_pred_succ k _ Hk). split; reflexivity.
  - unfold Playlist.next_file, Playlist.previous_file. simpl.
    change (Playlist.len (Playlist.Build (m :: l) ((-1 + 1) mod Playlist.len fresh)))
      with (Playlist.len fresh).
    assert (HN : 0 < Playlist.len fresh) by apply (len_cons m l (-1)).
    replace ((-1 + 1) mod Playlist.len fresh) with 0
      by (apply (Z.mod_unique_pos _ _ 0); lia).
    symmetry. apply (Z.mod_unique_pos _ _ (-1)); lia.
Qed.

(** ** Broadcast with peers that have gone away *)

Lemma contains_app_here (c : socket) (pre rest : list socket) :
  contains c (pre ++ c :: rest) = true.
Proof.
  unfold contains. rewrite existsb_app. simpl. rewrite Nat.eqb_refl.
  simpl. apply orb_true_r.
Qed.

Lemma remove_first_app_here (w : World) (c : socket) (pre rest : list socket) :
  forallb (alive w) pre = true -> send_fails w c = true ->
  remove_first c (pre ++ c :: rest) = (pre ++ rest)%list.
Proof.
  intros Hpre Hc. induction pre as [| y pre IH]; simpl in *.
  - rewrite Nat.eqb_refl. reflexivity.
  - apply andb_true_iff in Hpre. destruct Hpre as [Hy Hpre].
    destruct (Nat.eqb_spec c y) as [-> | Hne].
    + unfold alive in Hy. rewrite Hc in Hy. discriminate.
    + rewrite (IH Hpre). reflexivity.
Qed.

(** The loop of [broadcast_command] over the not yet visited part [rest] of
    the snapshot, when the peers already visited and kept are [pre]. *)
Lemma for_each_send_prunes (w : World) (cmd : Command) (rest : list socket) :
  forall (pre : list socket) (s : VLCSync),
  clients s = (pre ++ rest)%list ->
  forallb (alive w) pre = true ->
  exists s',
    for_each (fun c => send_command w cmd (Some c)) rest s = (Ok tt, s') /\
    clients s' = (pre ++ List.filter (alive w) rest)%list /\
    sent s' = (sent s ++ map (fun c => (c, cmd)) rest)%list /\
    player s' = player s /\ playlist s' = playlist s /\
    shuffle_mode s' = shuffle_mode s /\ missing_files s' = missing_files s.
Proof.
  induction rest as [| c rest IH]; intros pre s Hcl Hpre; cbn [for_each map List.filter].
  - exists s. munfold. rewrite !app_nil_r in *. repeat split; auto.
  - munfold. unfold send_command. munfold. simpl.
    unfold alive at 1. destruct (send_fails w c) eqn:Hc; simpl.
    + rewrite Hcl, contains_app_here. simpl.
      rewrite (remove_first_app_here w c pre rest Hpre Hc).
      match goal with
      | |- context [for_each _ rest ?s1] =>
          destruct (IH pre s1) as (s' & Hrun & Hcl' & Hsent & Hp & Hpl & Hsh & Hm);
            [reflexivity | exact Hpre |]
      end.
      exists s'. split; [exact Hrun |]. simpl in *.
      rewrite Hsent, <- app_assoc. repeat split; auto.
    + match goal with
      | |- context [for_each _ rest ?s1] =>
          destruct (IH (pre ++ [c])%list s1)
            as (s' & Hrun & Hcl' & Hsent & Hp & Hpl & Hsh & Hm)
      end.
      { simpl. rewrite Hcl, <- app_assoc. reflexivity. }
      { rewrite forallb_app, Hpre. simpl. unfold alive. rewrite Hc. reflexivity. }
      exists s'. split; [exact Hrun |]. simpl in *.
      rewrite Hsent, Hcl', <- !app_assoc. repeat split; auto.
Qed.

(** X2. [broadcast_command] hands the message to every peer of
    [self.clients], once each and in order, also after a send has failed;
    afterwards [self.clients] holds exactly the peers whose send did not
    raise, in their old order.  Player, playlist, shuffle flag and
    [missing_files] are untouched. *)
Theorem broadcast_prunes_dead_peers (w : World) (cmd : Command) (s : VLCSync) :
  exists s',
    broadcast_command w cmd s = (Ok tt, s') /\
    sent s' = (sent s ++ map (fun c => (c, cmd)) (clients s))%list /\
    clients s' = List.filter (alive w) (clients s) /\
    player s' = player s /\ playlist s' = playlist s /\
    shuffle_mode s' = shuffle_mode s /\ missing_files s' = missing_files s.
Proof.
  unfold broadcast_command. munfold.
  destruct (for_each_send_prunes w cmd (clients s) [] s eq_refl eq_refl)
    as (s' & Hrun & Hcl & Hsent & Hrest).
  exists s'. split; [exact Hrun |]. split; [exact Hsent |]. split; [exact Hcl |].
  exact Hrest.
Qed.

(** ** What a [playlist_info] message can and cannot do *)

Lemma find_matching_file_state (w : World) (fi : FileInfo) (s : VLCSync) :
  snd (find_matching_file w fi s) = s.
Proof.
  unfold find_matching_file. munfold.
  destruct (folder_path s) as [folder |]; [| reflexivity].
  destruct (truthy folder); reflexivity.
Qed.

Lemma same_session_refl (s : VLCSync) : same_session s s.
Proof. unfold same_session. repeat split; reflexivity. Qed.

Lemma keeps_keys_insert (m : gmap Z MediaFile.t) (k : Z) (v : MediaFile.t) :
  keeps_keys m (<[k := v]> m).
Proof.
  intros j Hj. destruct (decide (k = j)) as [-> | Hne].
  - rewrite lookup_insert_eq. eauto.
  - rewrite lookup_insert_ne by exact Hne. exact Hj.
Qed.

(** Whatever is announced and whatever the file system answers, the loop of
    [handle_playlist_info] only appends entries, at most one per announced
    entry and exactly one when it returns normally, and only adds keys to
    [missing_files]. *)
Lemma reconcile_frame (w : World) (l : list FileInfo) :
  forall (missing : list MediaFile.t) (s : VLCSync),
  let r := reconcile w l missing s in
  same_session s (snd r) /\ log (snd r) = log s /\
  Playlist.current_index (playlist (snd r)) = Playlist.current_index (playlist s) /\
  keeps_keys (missing_files s) (missing_files (snd r)) /\
  exists added,
    Playlist.media_files (playlist (snd r)) =
      (Playlist.media_files (playlist s) ++ added)%list /\
    (length added <= length l)%nat /\
    (forall m', fst r = Ok m' -> length added = length l).
Proof.
  induction l as [| fi rest IH]; intros missing s r; subst r.
  - simpl. munfold. simpl. split; [apply same_session_refl |].
    split; [reflexivity |]. split; [reflexivity |].
    split; [intros k Hk; exact Hk |].
    exists []. rewrite app_nil_r. auto.
  - assert (Hstop : forall e,
              same_session s s /\ log s = log s /\
              Playlist.current_index (playlist s) = Playlist.current_index (playlist s) /\
              keeps_keys (missing_files s) (missing_files s) /\
              exists added,
                Playlist.media_files (playlist s) =
                  (Playlist.media_files (playlist s) ++ added)%list /\
                (length added <= length (fi :: rest))%nat /\
                (forall m', @Raise (list MediaFile.t) e = Ok m' ->
                            length added = length (fi :: rest))).
    { intros e. split; [apply same_session_refl |].
      split; [reflexivity |]. split; [reflexivity |].
      split; [intros k Hk; exact Hk |].
      exists []. rewrite app_nil_r. simpl.
      split; [reflexivity |]. split; [lia | discriminate]. }
    cbn [reconcile]. munfold.
    pose proof (find_matching_file_state w fi s) as Hfind.
    destruct (find_matching_file w fi s) as [[local_path | e] s1]; simpl in Hfind;
      subst s1; [| apply Hstop].
    destruct (fi_name fi) as [name |]; simpl; [| apply Hstop].
    destruct (fi_size fi) as [size |]; simpl; [| apply Hstop].
    destruct (fi_hash fi) as [hash |]; simpl; [| apply Hstop].
    destruct (fi_index fi) as [index |]; simpl; [| apply Hstop].
    clear Hstop.
    set (mf := MediaFile.Build _ name size hash index).
    destruct (negb (truthy_opt local_path)); simpl.
    + match goal with
      | |- context [reconcile w rest ?m ?s1] =>
          destruct (IH m s1) as (Hsess & Hlog & Hcur & Hkeys & added & Hadd & Hle & Hok)
      end.
      simpl in *. unfold same_session in *. simpl in *.
      split; [exact Hsess |]. split; [exact Hlog |]. split; [exact Hcur |].
      split.
      * intros k Hk. apply Hkeys. apply keeps_keys_insert. exact Hk.
      * exists (mf :: added). rewrite Hadd, <- app_assoc. simpl.
        split; [reflexivity |]. split; [lia |].
        intros m' Hm'. rewrite (Hok m' Hm'). reflexivity.
    + match goal with
      | |- context [reconcile w rest ?m ?s1] =>
          destruct (IH m s1) as (Hsess & Hlog & Hcur & Hkeys & added & Hadd & Hle & Hok)
      end.
      simpl in *. unfold same_session in *. simpl in *.
      split; [exact Hsess |]. split; [exact Hlog |]. split; [exact Hcur |].
      split; [exact Hkeys |].
      exists (mf :: added). rewrite Hadd, <- app_assoc. simpl.
      split; [reflexivity |]. split; [lia |].
      intros m' Hm'. rewrite (Hok m' Hm'). reflexivity.
Qed.

(** X3. Whatever a [playlist_info] message announces, and whether
    [handle_playlist_info] returns or raises half-way (a missing key, an
    unreadable file): the old playlist is gone and the cursor is -1; the new
    playlist has at most one entry per announced entry, and exactly one when
    the call returns normally; the player (loaded media, position, playing
    flag), the peers and the network are untouched; and no key is ever taken
    out of [missing_files]. *)
Theorem handle_playlist_info_resets (w : World) (l : list FileInfo) (s : VLCSync) :
  let r := handle_playlist_info w l s in
  Playlist.current_index (playlist (snd r)) = -1 /\
  (length (Playlist.media_files (playlist (snd r))) <= length l)%nat /\
  (fst r = Ok tt -> length (Playlist.media_files (playlist (snd r))) = length l) /\
  same_session s (snd r) /\
  keeps_keys (missing_files s) (missing_files (snd r)).
Proof.
  intros r. subst r. unfold handle_playlist_info. munfold.
  destruct (reconcile_frame w l [] (set_playlist Playlist.init s))
    as (Hsess & _ & Hcur & Hkeys & added & Hadd & Hle & Hok).
  destruct (reconcile w l [] (set_playlist Playlist.init s)) as [[missing | e] s1];
    simpl in *.
  - assert (Hlen : length added = length l) by (apply (Hok missing); reflexivity).
    destruct missing as [| m ms]; simpl; rewrite Hadd, Hcur;
      (split; [reflexivity |]); (split; [simpl; lia |]);
      (split; [intros _; exact Hlen |]); (split; [exact Hsess | exact Hkeys]).
  - rewrite Hadd, Hcur.
    split; [reflexivity |]. split; [exact Hle |]. split; [discriminate |].
    split; [exact Hsess | exact Hkeys].
Qed.

(** ** The receive loops *)

Section LoopFacts.

Variable h : World -> Command -> option socket -> M unit.


Lemma handle_client_loop_after_close (peer : socket) (w : World)
    (rest : list (World * recv_event)) (pre : list (World * recv_event)) :
  forall s,
  handle_client_loop h peer (pre ++ (w, RecvEmpty) :: rest) s =
    handle_client_loop h peer (pre ++ [(w, RecvEmpty)]) s.
Proof.
  induction pre as [| [w' ev] pre IH]; intros s; [reflexivity |].
  rewrite <- !app_comm_cons. cbn [handle_client_loop].
  destruct ev; try reflexivity; try apply IH.
  destruct (h w' command (Some peer) s) as [[u | e] s1]; [apply IH | reflexivity].
Qed.

Lemma receive_commands_loop_after_close (w : World)
    (rest : list (World * recv_event)) (pre : list (World * recv_event)) :
  forall s,
  receive_commands_loop h (pre ++ (w, RecvEmpty) :: rest) s =
    receive_commands_loop h (pre ++ [(w, RecvEmpty)]) s.
Proof.
  induction pre as [| [w' ev] pre IH]; intros s; [reflexivity |].
  rewrite <- !app_comm_cons. cbn [receive_commands_loop].
  destruct ev; try reflexivity; try apply IH.
  destruct (h w' command None s) as [[u | e] s1]; [apply IH | reflexivity].
Qed.

(** A loop that has run through a close has been left. *)
Lemma handle_client_loop_closed (peer : socket) (w : World)
    (pre : list (World * recv_event)) :
  forall s, fst (handle_client_loop h peer (pre ++ [(w, RecvEmpty)]) s) = Ok LoopExited.
Proof.
  induction pre as [| [w' ev] pre IH]; intros s; [reflexivity |].
  rewrite <- app_comm_cons. cbn [handle_client_loop].
  destruct ev; try reflexivity; try apply IH.
  destruct (h w' command (Some peer) s) as [[u | e] s1]; [apply IH | reflexivity].
Qed.



(** X5. Once a peer has closed the connection (an empty read), what arrives
    afterwards is never dispatched, in either loop and whatever was handled
    before; the host's [handle_client] has then been left, and when the
    close is the first thing read, its [finally] block has taken the peer
    out of [clients] and printed "Client disconnected", nothing else having
    changed. *)
Theorem closed_connection_ends_loop (peer : socket) (w : World)
    (pre rest : list (World * recv_event)) (s : VLCSync) :
  handle_client_with h peer (pre ++ (w, RecvEmpty) :: rest) s =
    handle_client_with h peer (pre ++ [(w, RecvEmpty)]) s /\
  receive_commands_with h (pre ++ (w, RecvEmpty) :: rest) s =
    receive_commands_with h (pre ++ [(w, RecvEmpty)]) s /\
  fst (handle_client_with h peer (pre ++ (w, RecvEmpty) :: rest) s) = Ok LoopExited /\
  handle_client_with h peer ((w, RecvEmpty) :: rest) s =
    (Ok LoopExited,
     set_log (log (drop_peer peer s) ++ [LogClientDisconnected]) (drop_peer peer s)).
Proof.
  split; [| split; [| split]].
  - unfold handle_client_with. munfold.
    rewrite handle_client_loop_after_close. reflexivity.
  - unfold receive_commands_with. munfold.
    rewrite receive_commands_loop_after_close. reflexivity.
  - unfold handle_client_with. munfold.
    rewrite handle_client_loop_after_close.
    pose proof (handle_client_loop_closed peer w pre s) as Hc.
    destruct (handle_client_loop h peer (pre ++ [(w, RecvEmpty)]) s) as [r s1].
    simpl in Hc. rewrite Hc. destruct (contains peer (clients s1)); reflexivity.
  - unfold handle_client_with, drop_peer. munfold. simpl.
    destruct (contains peer (clients s)); reflexivity.
Qed.

End LoopFacts.

(** ** The dispatcher on host and client *)

(** [request_file] always returns; a host sends nothing, a client hands the
    request to its socket. *)
Lemma request_file_cases (w : World) (file_index : Z) (s : VLCSync) :
  exists s',
    request_file w file_index s = (Ok tt, s') /\
    player s' = player s /\ playlist s' = playlist s /\
    is_host s' = is_host s /\ shuffle_mode s' = shuffle_mode s /\
    client_socket s' = client_socket s /\
    sent s' =
      match client_socket s with
      | Some c =>
          if is_host s then sent s
          else (sent s ++ [(c, request_file_msg file_index)])%list
      | None => sent s
      end.
Proof.
  unfold request_file, send_command, request_file_msg. munfold.
  destruct (is_host s) eqn:Hhost; simpl.
  - exists s. destruct (client_socket s); repeat split; auto.
  - destruct (client_socket s) as [c |] eqn:Hsock; simpl.
    + destruct (send_fails w c); simpl;
        [destruct (contains c (clients s)); simpl |];
        eexists; (split; [reflexivity |]); simpl; repeat split; auto.
    + exists s. repeat split; auto.
Qed.

(** [verify_and_load_file], case by case. *)
Lemma verify_and_load_file_cases (w : World) (file_index : Z) (s : VLCSync) :
  verify_and_load_file w file_index s =
    match lookup_index file_index (playlist s) with
    | None => (Ok false, set_log (log s ++ [LogIndexNotFound file_index]) s)
    | Some mf =>
        if path_exists w (MediaFile.path mf) then
          (Ok true,
           set_player (Player.set_media (MediaFile.path mf) (player s))
             (set_playlist (snd (Playlist.set_current_index file_index (playlist s))) s))
        else
          (Ok false,
           snd (request_file w file_index
                  (set_log (log s ++ [LogFileNotFoundLocally (MediaFile.name mf)]) s)))
    end.
Proof.
  unfold verify_and_load_file. munfold.
  destruct (lookup_index file_index (playlist s)) as [mf |]; [| reflexivity].
  destruct (path_exists w (MediaFile.path mf)); simpl; [reflexivity |].
  match goal with
  | |- context [request_file w file_index ?s1] =>
      destruct (request_file_cases w file_index s1) as (s' & Hrun & _)
  end.
  rewrite Hrun. reflexivity.
Qed.

Lemma lookup_index_in_range (file_index : Z) (p : Playlist.t) (mf : MediaFile.t) :
  indices_in_range p -> lookup_index file_index p = Some mf ->
  Playlist.set_current_index file_index p =
    (true, Playlist.Build (Playlist.media_files p) file_index).
Proof.
  intros Hrange Hmf.
  destruct (lookup_index_found _ _ _ Hmf) as [Hin Hidx].
  pose proof (Hrange mf Hin) as Hr. rewrite Hidx in Hr.
  destruct (set_current_index_spec file_index p) as [[_ H] | [Hno _]];
    [exact H | contradiction].
Qed.



(** ** From the host to its clients *)

(** X7. A seek entered on the host ([seek]) or received by it as a [seek]
    message sets the host's position and hands [seek(time)] to every
    connected peer, in both variants alike; a client that handles that
    message ends at the same position and sends nothing. *)
Theorem seek_propagates (wh wc : World) (host client : VLCSync) (time_ms : Z)
    (from : option socket) :
  is_host host = true ->
  is_host client = false ->
  exists host',
    seek wh time_ms host = (Ok tt, host') /\
    Main2.handle_command wh (seek_msg time_ms) from host = (Ok tt, host') /\
    Main.handle_command wh (seek_msg time_ms) from host = (Ok tt, host') /\
    Player.time (player host') = time_ms /\
    sent host' =
      (sent host ++ map (fun peer => (peer, seek_msg time_ms)) (clients host))%list /\
    Main2.handle_command wc (seek_msg time_ms) None client =
      (Ok tt, set_player (Player.set_time time_ms (player client)) client) /\
    Main.handle_command wc (seek_msg time_ms) None client =
      (Ok tt, set_player (Player.set_time time_ms (player client)) client).
Proof.
  intros Hhost Hclient.
  destruct (broadcast_command_sent wh (seek_msg time_ms)
              (set_player (Player.set_time time_ms (player host)) host))
    as (host' & Hrun & Hsent & Hp & _).
  assert (Hseek : seek wh time_ms host = (Ok tt, host')).
  { unfold seek. munfold. simpl. rewrite Hhost. exact Hrun. }
  exists host'. split; [exact Hseek |].
  split; [exact Hseek |]. split; [exact Hseek |].
  split; [rewrite Hp; reflexivity |]. split; [exact Hsent |].
  unfold Main2.handle_command, Main.handle_command, seek. munfold. simpl.
  rewrite Hclient. split; reflexivity.
Qed.

Lemma seek_propagates_example :
  exists host',
    seek lossy_world 42000 (host_at true 1000 [1%nat; 2%nat]) = (Ok tt, host') /\
    sent host' = [(1%nat, seek_msg 42000); (2%nat, seek_msg 42000)] /\
    Main2.handle_command quiet_world (seek_msg 42000) None (client_at true 0 100) =
      (Ok tt, client_at true 42000 100).
Proof.
  destruct (seek_propagates lossy_world quiet_world (host_at true 1000 [1%nat; 2%nat])
              (client_at true 0 100) 42000 None eq_refl eq_refl)
    as (host' & Hseek & _ & _ & _ & Hsent & Hclient & _).
  exists host'. repeat split; assumption.
Defined.

(** X8. [toggle_shuffle] received by the host of [main2.py] flips its
    shuffle flag and hands [shuffle_state] with the new value to every
    connected peer; a client that handles that message holds the host's new
    value, whatever it held before.  A client ignores [toggle_shuffle], a
    host ignores [shuffle_state], and [main.py] knows neither. *)
Theorem toggle_shuffle_converges (wh wc : World) (host client : VLCSync)
    (from : option socket) :
  is_host host = true ->
  is_host client = false ->
  let flipped := negb (shuffle_mode host) in
  (exists host',
     Main2.handle_command wh (msg "toggle_shuffle") from host = (Ok tt, host') /\
     shuffle_mode host' = flipped /\
     sent host' =
       (sent host ++
        map (fun peer => (peer, shuffle_state_msg flipped)) (clients host))%list /\
     player host' = player host /\ playlist host' = playlist host) /\
  Main2.handle_command wc (shuffle_state_msg flipped) None client =
    (Ok tt, set_shuffle_mode flipped client) /\
  Main2.handle_command wc (msg "toggle_shuffle") None client = (Ok tt, client) /\
  Main2.handle_command wh (shuffle_state_msg flipped) from host = (Ok tt, host) /\
  Main.handle_command wh (msg "toggle_shuffle") from host = (Ok tt, host) /\
  Main.handle_command wc (shuffle_state_msg flipped) None client = (Ok tt, client).
Proof.
  intros Hhost Hclient flipped. split.
  - unfold Main2.handle_command, Main2.toggle_shuffle. munfold. simpl.
    rewrite Hhost. simpl.
    destruct (broadcast_command_sent wh (shuffle_state_msg flipped)
                (set_shuffle_mode flipped host))
      as (host' & Hrun & Hsent & Hp & Hpl & _ & Hsh).
    exists host'. split; [exact Hrun |]. simpl in *. auto.
  - unfold Main2.handle_command, Main.handle_command. munfold. simpl.
    rewrite Hhost, Hclient. repeat split.
Qed.

Lemma toggle_shuffle_converges_example :
  exists host',
    Main2.handle_command lossy_world (msg "toggle_shuffle") (Some 1%nat)
      (host_at true 1000 [1%nat; 2%nat]) = (Ok tt, host') /\
    shuffle_mode host' = true /\
    sent host' = [(1%nat, shuffle_state_msg true); (2%nat, shuffle_state_msg true)] /\
    shuffle_mode
      (snd (Main2.handle_command quiet_world (shuffle_state_msg true) None
              (client_at true 0 100))) = true.
Proof.
  destruct (toggle_shuffle_converges lossy_world quiet_world
              (host_at true 1000 [1%nat; 2%nat]) (client_at true 0 100)
              (Some 1%nat) eq_refl eq_refl)
    as ((host' & Hrun & Hflag & Hsent & _) & Hclient & _).
  exists host'. split; [exact Hrun |]. split; [exact Hflag |].
  split; [exact Hsent |]. reflexivity.
Defined.

(** X9. A sync, end to end.  [send_sync_command] on a playing host of
    [main2.py] at position [P] whose clock reads [T0] hands [sync(P, T0)] to
    every peer; a
    client of [main2.py] that handles it when its own clock reads [T1] and
    is not playing ends at [P + (T1 - T0)], the host's position when the two
    readings agree.  The sync round of [main.py]'s host sends the position
    alone: a
    client of [main2.py] that is handed that message raises [KeyError] for
    [sync_time] and changes nothing. *)
Theorem sync_from_host_to_client (wh wc : World) (host client : VLCSync) :
  is_host host = true ->
  Player.is_playing (player host) = true ->
  is_host client = false ->
  Player.is_playing (player client) = false ->
  let P := Player.time (player host) in
  let T0 := clock_ms wh in
  let T1 := clock_ms wc in
  (exists host',
     Main2.send_sync_command wh host = (Ok tt, host') /\
     sent host' =
       (sent host ++ map (fun peer => (peer, sync_msg P T0)) (clients host))%list /\
     player host' = player host) /\
  Main2.handle_command wc (sync_msg P T0) None client =
    (Ok tt, set_player (Player.set_time (P + (T1 - T0)) (player client)) client) /\
  (T1 = T0 ->
   Player.time (player (snd (Main2.handle_command wc (sync_msg P T0) None client))) = P) /\
  (exists host',
     Main.sync_playback_step wh host = (Ok tt, host') /\
     sent host' =
       (sent host ++ map (fun peer => (peer, sync_msg_untimed P)) (clients host))%list) /\
  Main2.handle_command wc (sync_msg_untimed P) None client =
    (Raise (KeyError "sync_time"), client).
Proof.
  intros Hhost Hplay Hclient Hidle P T0 T1.
  assert (Hc : Main2.handle_command wc (sync_msg P T0) None client =
               (Ok tt, set_player (Player.set_time (P + (T1 - T0)) (player client)) client)).
  { unfold Main2.handle_command, Main2.handle_sync. munfold. simpl.
    rewrite Hclient. simpl. rewrite Hclient. simpl. rewrite Hidle. reflexivity. }
  split; [| split; [exact Hc | split; [| split]]].
  - unfold Main2.send_sync_command. munfold.
    rewrite Hhost, Hplay. simpl.
    destruct (broadcast_command_sent wh (sync_msg P T0) host)
      as (host' & Hrun & Hsent & Hp & _).
    exists host'. auto.
  - intros HT. rewrite Hc. simpl. lia.
  - unfold Main.sync_playback_step. munfold. rewrite Hhost, Hplay. simpl.
    destruct (broadcast_command_sent wh (sync_msg_untimed P) host)
      as (host' & Hrun & Hsent & _).
    exists host'. auto.
  - unfold Main2.handle_command, Main2.handle_sync. munfold. simpl.
    rewrite Hclient. simpl. rewrite Hclient. reflexivity.
Qed.

Lemma sync_from_host_to_client_example :
  exists host',
    Main2.send_sync_command lossy_world (host_at true 1000 [1%nat]) = (Ok tt, host') /\
    sent host' = [(1%nat, sync_msg 1000 7000)] /\
    Main2.handle_command (world_at 7250 0) (sync_msg 1000 7000) None
      (client_at false 0 100) = (Ok tt, client_at false 1250 100).
Proof.
  destruct (sync_from_host_to_client lossy_world (world_at 7250 0)
              (host_at true 1000 [1%nat]) (client_at false 0 100)
              eq_refl eq_refl eq_refl eq_refl)
    as ((host' & Hrun & Hsent & _) & Hclient & _).
  exists host'. repeat split; assumption.
Defined.

(** X10. A host that receives [ping] from a peer hands exactly one [pong] to
    that peer and to nobody else, and changes neither player nor playlist; a
    client that receives [ping] does nothing.  A host that receives
    [request_file] never sends anything to anybody: it prints a line when it
    has the file, raises [KeyError] when the message has no index, and a
    client ignores the message.  Both variants agree. *)
Theorem ping_and_request_file_on_host (w : World) (host client : VLCSync)
    (peer : socket) (file_index : Z) :
  is_host host = true ->
  is_host client = false ->
  (exists host',
     Main2.handle_command w (msg "ping") (Some peer) host = (Ok tt, host') /\
     Main.handle_command w (msg "ping") (Some peer) host = (Ok tt, host') /\
     sent host' = (sent host ++ [(peer, msg "pong")])%list /\
     player host' = player host /\ playlist host' = playlist host) /\
  Main2.handle_command w (msg "ping") None client = (Ok tt, client) /\
  Main.handle_command w (msg "ping") None client = (Ok tt, client) /\
  (exists host',
     Main2.handle_command w (request_file_msg file_index) (Some peer) host =
       (Ok tt, host') /\
     Main.handle_command w (request_file_msg file_index) (Some peer) host =
       (Ok tt, host') /\
     sent host' = sent host /\ clients host' = clients host /\
     player host' = player host /\ playlist host' = playlist host) /\
  Main2.handle_command w (msg "request_file") (Some peer) host =
    (Raise (KeyError "index"), host) /\
  Main2.handle_command w (request_file_msg file_index) None client = (Ok tt, client) /\
  Main.handle_command w (request_file_msg file_index) None client = (Ok tt, client).
Proof.
  intros Hhost Hclient.
  split; [| split; [| split; [| split; [| split; [| split]]]]].
  - destruct (send_command_sent w (msg "pong") peer host)
      as (host' & Hrun & Hsent & Hp & Hpl & _).
    exists host'.
    assert (H2 : Main2.handle_command w (msg "ping") (Some peer) host =
                 send_command w (msg "pong") (Some peer) host).
    { unfold Main2.handle_command. munfold. simpl. rewrite Hhost. reflexivity. }
    assert (H1 : Main.handle_command w (msg "ping") (Some peer) host =
                 send_command w (msg "pong") (Some peer) host).
    { unfold Main.handle_command. munfold. simpl. rewrite Hhost. reflexivity. }
    rewrite H1, H2, Hrun. auto.
  - unfold Main2.handle_command. munfold. simpl. rewrite Hclient. reflexivity.
  - unfold Main.handle_command. munfold. simpl. rewrite Hclient. reflexivity.
  - unfold Main2.handle_command, Main.handle_command, handle_file_request.
    munfold. simpl. rewrite Hhost. simpl.
    destruct (lookup_index file_index (playlist host)) as [mf |];
      [destruct (path_exists w (MediaFile.path mf)) |];
      eexists; repeat split; reflexivity.
  - unfold Main2.handle_command, handle_file_request. munfold. simpl.
    rewrite Hhost. reflexivity.
  - unfold Main2.handle_command. munfold. simpl. rewrite Hclient. reflexivity.
  - unfold Main.handle_command. munfold. simpl. rewrite Hclient. reflexivity.
Qed.

Lemma ping_and_request_file_example :
  exists host',
    Main2.handle_command lossy_world (msg "ping") (Some 1%nat)
      (host_at true 1000 [1%nat; 2%nat]) = (Ok tt, host') /\
    sent host' = [(1%nat, msg "pong")].
Proof.
  destruct (ping_and_request_file_on_host lossy_world
              (host_at true 1000 [1%nat; 2%nat]) (client_at true 0 100) 1%nat 0
              eq_refl eq_refl)
    as ((host' & Hrun & _ & Hsent & _) & _).
  exists host'. split; [exact Hrun | exact Hsent].
Defined.

(** ** Advancing through the playlist *)

Lemma indexed_from_tail (start : Z) (x : MediaFile.t) (l : list MediaFile.t) :
  indexed_from start (x :: l) ->
  MediaFile.index x = start /\ indexed_from (start + 1) l.
Proof.
  intros H. split.
  - rewrite (H 0%nat x eq_refl). lia.
  - intros i mf Hi. rewrite (H (S i) mf Hi). lia.
Qed.

(** On a list whose entry [i] carries index [start + i], looking an index up
    finds the entry at that position. *)
Lemma find_indexed (l : list MediaFile.t) :
  forall (start : Z) (i : nat) (mf : MediaFile.t),
  indexed_from start l -> l !! i = Some mf ->
  find (fun m => MediaFile.index m =? start + Z.of_nat i) l = Some mf.
Proof.
  induction l as [| x l IH]; intros start i mf Hidx Hi; [discriminate |].
  destruct (indexed_from_tail _ _ _ Hidx) as [Hx Hl].
  destruct i as [| i]; cbn [find].
  - simpl in Hi. injection Hi as <-. rewrite Hx.
    destruct (Z.eqb_spec start (start + Z.of_nat 0)); [reflexivity | lia].
  - simpl in Hi. rewrite Hx.
    destruct (Z.eqb_spec start (start + Z.of_nat (S i))); [lia |].
    replace (start + Z.of_nat (S i)) with (start + 1 + Z.of_nat i) by lia.
    apply IH; assumption.
Qed.

Lemma lookup_index_indexed (l : list MediaFile.t) (k z : Z) (mf : MediaFile.t) :
  indexed_from 0 l -> 0 <= z -> l !! Z.to_nat z = Some mf ->
  lookup_index z (Playlist.Build l k) = Some mf.
Proof.
  intros Hidx Hz Hmf. unfold lookup_index. cbn [Playlist.media_files].
  pose proof (find_indexed l 0 (Z.to_nat z) mf Hidx Hmf) as Hf.
  rewrite Z2Nat.id in Hf by lia. exact Hf.
Qed.

(** [play_file] of either variant on an entry that the playlist holds. *)
Lemma play_file_result (w : World) (file_index : Z) (s : VLCSync) (mf : MediaFile.t) :
  indices_in_range (playlist s) ->
  lookup_index file_index (playlist s) = Some mf ->
  exists s',
    Main2.play_file w file_index s = (Ok tt, s') /\
    Main.play_file w file_index s = (Ok tt, s') /\
    if path_exists w (MediaFile.path mf) then
      playlist s' = Playlist.Build (Playlist.media_files (playlist s)) file_index /\
      player s' = Player.play (Player.set_media (MediaFile.path mf) (player s)) /\
      sent s' =
        if is_host s then
          (sent s ++ map (fun peer =>
                            (peer, play_file_msg file_index (Player.time (player s))))
                         (clients s))%list
        else sent s
    else playlist s' = playlist s /\ player s' = player s.
Proof.
  intros Hrange Hmf.
  unfold Main2.play_file, Main.play_file, Main2.play, Main.play. munfold.
  rewrite verify_and_load_file_cases, Hmf.
  destruct (path_exists w (MediaFile.path mf)) eqn:Hex.
  - rewrite (lookup_index_in_range _ _ _ Hrange Hmf). simpl.
    destruct (is_host s) eqn:Hhost; simpl.
    + match goal with
      | |- context [broadcast_command w ?m ?s1] =>
          destruct (broadcast_command_sent w m s1)
            as (s' & Hrun & Hsent & Hp & Hpl & _)
      end.
      exists s'. rewrite Hrun. simpl in *. repeat split; auto.
    + rewrite Hhost. eexists. repeat split; reflexivity.
  - match goal with
    | |- context [request_file w file_index ?s1] =>
        destruct (request_file_cases w file_index s1) as (s' & Hrun & Hp & Hpl & _)
    end.
    rewrite Hrun. simpl in *. exists s'. repeat split; auto.
Qed.

(** X11. Two ways to the next entry, on a non-empty playlist whose entry at
    position [i] carries index [i], with the cursor at [k] and [j] =
    [(k + 1) mod N].  The coordinator's [next_file] moves the cursor to [j]
    first and then tries to load: when the file of entry [j] is missing the
    cursor has moved all the same while the player is as before.
    [play_next] of [main2.py] (shuffle off) goes through the load gate
    first: when the file is missing, cursor and player are as before.  When
    the file exists both end with the cursor at [j] and the player playing
    that file. *)
Theorem next_file_and_play_next (w : World) (s : VLCSync) (m : MediaFile.t)
    (l : list MediaFile.t) (k : Z) (mf : MediaFile.t) :
  playlist s = Playlist.Build (m :: l) k ->
  indexed_from 0 (m :: l) ->
  shuffle_mode s = false ->
  let j := (k + 1) mod Z.of_nat (length (m :: l)) in
  (m :: l) !! Z.to_nat j = Some mf ->
  exists s1 s2,
    Main2.next_file w s = (Ok tt, s1) /\
    Main.next_file w s = (Ok tt, s1) /\
    Main2.play_next w s = (Ok tt, s2) /\
    Playlist.current_index (playlist s1) = j /\
    if path_exists w (MediaFile.path mf) then
      Playlist.current_index (playlist s2) = j /\
      player s1 = Player.play (Player.set_media (MediaFile.path mf) (player s)) /\
      player s2 = player s1
    else
      playlist s2 = playlist s /\ player s1 = player s /\ player s2 = player s.
Proof.
  intros Hpl Hidx Hshuffle j Hmf.
  assert (HN : 0 < Z.of_nat (length (m :: l))) by (simpl; lia).
  assert (Hj : 0 <= j < Z.of_nat (length (m :: l))) by (apply Z.mod_pos_bound; exact HN).
  assert (Hfind : forall c, lookup_index j (Playlist.Build (m :: l) c) = Some mf).
  { intros c. apply lookup_index_indexed; [exact Hidx | lia | exact Hmf]. }
  assert (Hmfj : MediaFile.index mf = j).
  { rewrite (Hidx (Z.to_nat j) mf Hmf). rewrite Z2Nat.id by lia. lia. }
  assert (Hrange : forall c, indices_in_range (Playlist.Build (m :: l) c)).
  { intros c. apply indexed_in_range. exact Hidx. }
  (* the coordinator's next_file *)
  assert (Hnext : Playlist.next_file (playlist s) =
                  (Some mf, Playlist.Build (m :: l) j)).
  { rewrite Hpl. unfold Playlist.next_file. cbn [Playlist.media_files].
    unfold Playlist.get_current_file, Playlist.len.
    cbn [Playlist.media_files Playlist.current_index]. fold j.
    replace (0 <=? j) with true by (symmetry; apply Z.leb_le; lia).
    replace (j <? Z.of_nat (length (m :: l))) with true
      by (symmetry; apply Z.ltb_lt; lia).
    simpl andb. cbv iota. rewrite Hmf. reflexivity. }
  destruct (play_file_result w j (set_playlist (Playlist.Build (m :: l) j) s) mf
              (Hrange j) (Hfind j))
    as (s1 & Hrun2 & Hrun1 & Hcase1).
  assert (Hplay : lookup_index j (playlist s) = Some mf) by (rewrite Hpl; apply Hfind).
  assert (Hr : indices_in_range (playlist s)) by (rewrite Hpl; apply Hrange).
  destruct (play_file_result w j s mf Hr Hplay) as (s2 & Hrun3 & _ & Hcase2).
  exists s1, s2.
  split; [| split; [| split; [| split]]].
  - unfold Main2.next_file. munfold. rewrite Hnext. simpl. rewrite Hmfj. exact Hrun2.
  - unfold Main.next_file. munfold. rewrite Hnext. simpl. rewrite Hmfj. exact Hrun1.
  - unfold Main2.play_next, py_mod. munfold. rewrite Hshuffle, Hpl.
    unfold Playlist.len. cbn [Playlist.media_files Playlist.current_index].
    replace (Z.of_nat (length (m :: l)) =? 0) with false
      by (symmetry; apply Z.eqb_neq; lia).
    simpl lift. cbv beta iota. fold j. exact Hrun3.
  - destruct (path_exists w (MediaFile.path mf)).
    + destruct Hcase1 as (H1 & _). rewrite H1. reflexivity.
    + destruct Hcase1 as (H1 & _). rewrite H1. reflexivity.
  - destruct (path_exists w (MediaFile.path mf)).
    + destruct Hcase1 as (_ & Hp1 & _). destruct Hcase2 as (Hpl2 & Hp2 & _).
      rewrite Hpl2, Hp1, Hp2. simpl. auto.
    + destruct Hcase1 as (_ & Hp1). destruct Hcase2 as (Hpl2 & Hp2).
      simpl in Hp1. auto.
Qed.

(** On the reconciled client of the scenario with the cursor on entry 1, the
    next entry is entry 0, whose file is missing: [next_file] leaves the
    cursor on 0, [play_next] leaves it on 1. *)
Lemma next_file_and_play_next_scenario :
  exists s1 s2,
    Main2.next_file scenario_world
      (set_playlist (Playlist.Build (Playlist.media_files (playlist scenario_reconciled)) 1)
         scenario_reconciled) = (Ok tt, s1) /\
    Main2.play_next scenario_world
      (set_playlist (Playlist.Build (Playlist.media_files (playlist scenario_reconciled)) 1)
         scenario_reconciled) = (Ok tt, s2) /\
    Playlist.current_index (playlist s1) = 0 /\
    Playlist.current_index (playlist s2) = 1.
Proof.
  assert (Hidx : indexed_from 0 (Playlist.media_files (playlist scenario_reconciled))).
  { intros [| [| i]] mf H; simpl in H; try discriminate; injection H as <-;
      reflexivity. }
  destruct (next_file_and_play_next scenario_world
              (set_playlist
                 (Playlist.Build (Playlist.media_files (playlist scenario_reconciled)) 1)
                 scenario_reconciled)
              _ _ 1 _ eq_refl Hidx eq_refl eq_refl)
    as (s1 & s2 & Hn & _ & Hp & Hc1 & Hcase).
  simpl in Hcase. destruct Hcase as (Hpl2 & _).
  exists s1, s2. rewrite Hpl2. repeat split; assumption.
Defined.

(** ** Loading the host's playlist *)

(** Whatever the file system answers, the [enumerate] loop of
    [load_playlist] appends one entry per scanned path, in scan order and
    numbered from [start], until the end of the list or the first path whose
    [get_file_info] raises. *)
Lemma load_from_frame (w : World) (paths : list string) :
  forall (start : Z) (s : VLCSync),
  let r := load_from w start paths s in
  same_session s (snd r) /\
  Playlist.current_index (playlist (snd r)) = Playlist.current_index (playlist s) /\
  exists added,
    Playlist.media_files (playlist (snd r)) =
      (Playlist.media_files (playlist s) ++ added)%list /\
    map MediaFile.path added = take (length added) paths /\
    (forall (i : nat) mf, added !! i = Some mf ->
       loaded_entry w (start + Z.of_nat i) (MediaFile.path mf) = Some mf) /\
    (fst r = Ok tt -> length added = length paths) /\
    (fst r <> Ok tt ->
       fst r = Raise OSError /\
       exists bad, paths !! length added = Some bad /\ file_info w bad = None).
Proof.
  induction paths as [| path rest IH]; intros start s r; subst r.
  - simpl. munfold. simpl. split; [apply same_session_refl |].
    split; [reflexivity |]. exists []. rewrite app_nil_r. simpl.
    split; [reflexivity |]. split; [reflexivity |].
    split; [intros i mf Hi; destruct i; discriminate |].
    split; [reflexivity |]. intros Hne. contradiction.
  - cbn [load_from]. munfold. unfold get_file_info.
    destruct (file_info w path) as [[[name size] hash] |] eqn:Hinfo; simpl.
    + match goal with
      | |- context [load_from w _ rest ?s1] =>
          destruct (IH (start + 1) s1)
            as (Hsess & Hcur & added & Hadd & Hpaths & Hent & Hok & Herr)
      end.
      set (mf := MediaFile.Build path name size hash start) in *.
      unfold same_session in *. simpl in *.
      split; [exact Hsess |]. split; [exact Hcur |].
      exists (mf :: added). rewrite Hadd, <- app_assoc. simpl.
      split; [reflexivity |]. split; [rewrite Hpaths; reflexivity |].
      split; [| split].
      * intros [| i] e He; simpl in He.
        -- injection He as <-. unfold loaded_entry. simpl. rewrite Hinfo.
           replace (start + Z.of_nat 0) with start by lia. reflexivity.
        -- replace (start + Z.of_nat (S i)) with (start + 1 + Z.of_nat i) by lia.
           apply Hent. exact He.
      * intros H. rewrite (Hok H). reflexivity.
      * intros H. exact (Herr H).
    + split; [apply same_session_refl |]. split; [reflexivity |].
      exists []. rewrite app_nil_r. simpl.
      split; [reflexivity |]. split; [reflexivity |].
      split; [intros i mf Hi; destruct i; discriminate |].
      split; [discriminate |].
      intros _. split; [reflexivity |].
      exists path. split; [reflexivity | exact Hinfo].
Qed.

(** X12. [load_playlist] appends to the playlist one entry per scanned path,
    in scan order, with the path and the name, size and hash that
    [get_file_info] reports, the entries being numbered from 0 whatever the
    playlist held before; cursor and player are untouched.  When every file
    can be read it returns normally, and a host has then handed one
    [playlist_info] message announcing its whole playlist to every connected
    peer (a client sends nothing).  Otherwise it raises [OSError] at the
    first unreadable file, keeping the entries added before it, and nothing
    is announced. *)
Theorem load_playlist_appends (w : World) (folder : string) (s : VLCSync) :
  let r := load_playlist w folder s in
  let paths := find_media_files w folder in
  Playlist.current_index (playlist (snd r)) = Playlist.current_index (playlist s) /\
  player (snd r) = player s /\
  exists added,
    Playlist.media_files (playlist (snd r)) =
      (Playlist.media_files (playlist s) ++ added)%list /\
    map MediaFile.path added = take (length added) paths /\
    (forall (i : nat) mf, added !! i = Some mf ->
       loaded_entry w (Z.of_nat i) (MediaFile.path mf) = Some mf) /\
    (fst r = Ok tt ->
       length added = length paths /\
       sent (snd r) =
         if is_host s then
           (sent s ++
            map (fun peer =>
                   (peer, playlist_info_msg (Playlist.media_files (playlist (snd r)))))
                (clients s))%list
         else sent s) /\
    (fst r <> Ok tt ->
       fst r = Raise OSError /\ sent (snd r) = sent s /\
       exists bad, paths !! length added = Some bad /\ file_info w bad = None).
Proof.
  intros r paths. subst r. unfold load_playlist. munfold. fold paths.
  destruct (load_from_frame w paths 0 s)
    as (Hsess & Hcur & added & Hadd & Hpaths & Hent & Hok & Herr).
  unfold same_session in Hsess.
  destruct Hsess as (Hhost & _ & Hcl & _ & _ & Hp & Hsent).
  destruct (load_from w 0 paths s) as [[[] | e] s1]; simpl in *.
  - rewrite Hhost. destruct (is_host s); simpl.
    + unfold broadcast_playlist. munfold.
      destruct (broadcast_command_sent w
                  (with_playlist (map announce (Playlist.media_files (playlist s1)))
                     (msg "playlist_info")) s1)
        as (s2 & Hrun & Hsent2 & Hp2 & Hpl2 & _).
      rewrite Hrun. simpl. rewrite Hpl2, Hp2, Hcur, Hp.
      split; [reflexivity |]. split; [reflexivity |].
      exists added. split; [exact Hadd |]. split; [exact Hpaths |].
      split; [exact Hent |]. split.
      * intros _. split; [apply Hok; reflexivity |].
        rewrite Hsent2, Hsent, Hcl. reflexivity.
      * intros H. contradiction.
    + split; [exact Hcur |]. split; [exact Hp |].
      exists added. split; [exact Hadd |]. split; [exact Hpaths |].
      split; [exact Hent |]. split.
      * intros _. split; [apply Hok; reflexivity | exact Hsent].
      * intros H. contradiction.
  - split; [exact Hcur |]. split; [exact Hp |].
    exists added. split; [exact Hadd |]. split; [exact Hpaths |].
    split; [exact Hent |]. split; [discriminate |].
    intros H. destruct (Herr H) as (He & Hbad).
    split; [exact He |]. split; [exact Hsent | exact Hbad].
Qed.

(** ** What a client sends *)

Lemma handle_playlist_info_session (w : World) (l : list FileInfo) (s : VLCSync) :
  same_session s (snd (handle_playlist_info w l s)).
Proof.
  unfold handle_playlist_info. munfold.
  destruct (reconcile_frame w l [] (set_playlist Playlist.init s)) as (Hsess & _).
  destruct (reconcile w l [] (set_playlist Playlist.init s)) as [[missing | e] s1];
    simpl in *; [destruct missing |]; exact Hsess.
Qed.

(** X13. A client of [main2.py] never sends anything on its own account
    while dispatching: whatever message it handles, and whether the handling
    returns or raises, it stays a client and either nothing is sent, or the
    message was a [play_file] for an entry whose file it lacks and exactly
    one [request_file] for that index has gone to the host. *)
Theorem client_sends_only_request_file (w : World) (s : VLCSync) (c : Command)
    (from : option socket) :
  is_host s = false ->
  let s' := snd (Main2.handle_command w c from s) in
  is_host s' = false /\
  (sent s' = sent s \/
   exists sock file_index,
     client_socket s = Some sock /\ c_type c = Some "play_file" /\
     c_index c = Some file_index /\
     sent s' = (sent s ++ [(sock, request_file_msg file_index)])%list).
Proof.
  intros Hhost s'. subst s'.
  unfold Main2.handle_command. munfold.
  destruct (c_type c) as [ty |] eqn:Htype; simpl; [| auto].
  destruct (String.eqb_spec ty "playlist_info") as [-> | _].
  { destruct (c_playlist c) as [l |]; simpl; [| auto].
    destruct (handle_playlist_info_session w l s) as (Hh & _ & _ & _ & _ & _ & Hs).
    rewrite Hh, Hs. auto. }
  destruct (String.eqb_spec ty "play_file") as [-> | _].
  { destruct (c_index c) as [file_index |] eqn:Hidx; simpl; [| auto].
    rewrite verify_and_load_file_cases.
    destruct (lookup_index file_index (playlist s)) as [mf |]; [| simpl; auto].
    destruct (path_exists w (MediaFile.path mf)).
    - unfold Main2.play. munfold. simpl.
      destruct (c_time c); simpl; rewrite Hhost; simpl; auto.
    - match goal with
      | |- context [request_file w file_index ?s1] =>
          destruct (request_file_cases w file_index s1)
            as (s1' & Hrun & _ & _ & Hh & _ & _ & Hsent)
      end.
      rewrite Hrun. simpl in *. rewrite Hhost in Hsent. split; [congruence |].
      destruct (client_socket s) as [sock |]; [| left; exact Hsent].
      right. exists sock, file_index. auto. }
  destruct (String.eqb_spec ty "play") as [-> | _].
  { unfold Main2.play. munfold.
    destruct (c_time c); simpl; rewrite Hhost; simpl; auto. }
  destruct (String.eqb_spec ty "pause") as [-> | _].
  { unfold pause. munfold. simpl. rewrite Hhost. simpl. auto. }
  destruct (String.eqb_spec ty "seek") as [-> | _].
  { destruct (c_time c); simpl; [| auto].
    unfold seek. munfold. simpl. rewrite Hhost. simpl. auto. }
  destruct (String.eqb_spec ty "sync") as [-> | _].
  { rewrite Hhost. simpl. unfold Main2.handle_sync. munfold. rewrite Hhost. simpl.
    destruct (c_time c); simpl; [| auto].
    destruct (c_sync_time c); simpl; [| auto].
    destruct (Player.is_playing (player s)); simpl; [| auto].
    match goal with |- context [if ?b then _ else _] => destruct b end; simpl; auto. }
  destruct (String.eqb_spec ty "request_sync") as [-> | _].
  { rewrite Hhost. simpl. auto. }
  destruct (String.eqb_spec ty "toggle_shuffle") as [-> | _].
  { rewrite Hhost. simpl. auto. }
  destruct (String.eqb_spec ty "shuffle_state") as [-> | _].
  { rewrite Hhost. simpl. destruct (c_enabled c); simpl; auto. }
  destruct (String.eqb_spec ty "ping") as [-> | _].
  { rewrite Hhost. simpl. auto. }
  destruct (String.eqb_spec ty "request_file") as [-> | _].
  { rewrite Hhost. simpl. auto. }
  simpl. auto.
Qed.

Lemma client_sends_only_request_file_scenario :
  sent (snd (Main2.handle_command scenario_world (play_file_msg 0 50000) None
               scenario_reconciled)) = [(0%nat, request_file_msg 0)].
Proof.
  destruct (client_sends_only_request_file scenario_world scenario_reconciled
              (play_file_msg 0 50000) None eq_refl)
    as (_ & [Hnone | (sock & file_index & Hsock & _ & Hidx & Hsent)]).
  - exact (eq_trans (eq_sym eq_refl) eq_refl).
  - injection Hsock as <-. injection Hidx as <-. exact Hsent.
Defined.




(** The loops of [main2.py] on a host and on a client that are sent a
    message with a tag nobody knows, [hello], and then a [pause]: the
    [pause] is handled as if the stranger had never arrived. *)
Lemma unrecognized_tag_keeps_receiving_example :
  handle_client_loop Main2.handle_command 1%nat
    [(quiet_world, RecvData (msg "hello")); (quiet_world, RecvData (msg "pause"))]
    (host_at true 1000 [1%nat]) =
  handle_client_loop Main2.handle_command 1%nat
    [(quiet_world, RecvData (msg "pause"))] (host_at true 1000 [1%nat]).
Proof.
  destruct (unrecognized_tag_keeps_receiving quiet_world (host_at true 1000 [1%nat])
              (msg "hello") 1%nat "hello" [(quiet_world, RecvData (msg "pause"))]
              eq_refl eq_refl)
    as [Hhost _].
  exact Hhost.
Defined.


